(** * View-state synchronisation of the PerformanceSummary and IngestTraces views

    A shallow embedding of the script blocks of two Vue components of the
    OpenObserve web front end:

    - the PerformanceSummary view (refs [refreshInterval], [selectedDate],
      the two [watch]ers, the [onActivated] hook, [filterData] and the two
      [router.push] helpers);
    - [web/src/components/ingestion/traces/Index.vue] (the promise handlers of
      [getOrganizationPasscode] and [updatePasscode]).

    Reactive refs become fields of a state record, a watcher becomes a
    function that runs when its source has changed, and calls into the
    router, the store, the toast service and the window are recorded in an
    effect log carried by the state. *)

From Stdlib Require Import String Ascii Decimal DecimalString DecimalNat Arith Lia.
From stdpp Require Import base option gmap strings list.

Open Scope string_scope.
Open Scope list_scope.
Open Scope nat_scope.

(** ** JavaScript strings

    A JavaScript string is the sequence of its UTF-16 code units.
    [String.prototype.toLowerCase] is a function of the language, written
    with the tables of Unicode; the filter is embedded over it, and the only
    thing the proofs take from it is what it does to a string of ASCII
    characters: the letters [A]-[Z] become [a]-[z] and every other character
    stays. *)

Module JsString.

(** The code units of a literal written in ASCII. *)
Definition units (s : string) : list N :=
  N_of_ascii <$> list_ascii_of_string s.

Definition isAscii (s : list N) : Prop := Forall (fun u => (u < 128)%N) s.

Definition isUpper (u : N) : bool := ((65 <=? u) && (u <=? 90))%N.

Definition asciiLowerUnit (u : N) : N := if isUpper u then (u + 32)%N else u.

(** What [toLowerCase] does to a string of ASCII characters. *)
Definition asciiLower (s : list N) : list N := asciiLowerUnit <$> s.

(** [t] is the beginning of [s]. *)
Fixpoint startsWith (s t : list N) {struct t} : bool :=
  match t, s with
  | [], _ => true
  | _ :: _, [] => false
  | u :: t', v :: s' => (u =? v)%N && startsWith s' t'
  end.

(** [s.includes(t)]: [t] occurs in [s] at some position. *)
Fixpoint includes (s t : list N) : bool :=
  if startsWith s t then true
  else match s with
       | [] => false
       | _ :: s' => includes s' t
       end.

(** Two ASCII characters are the same letter up to case: equal, or one is
    a capital [A]-[Z] and the other the small letter 32 places after it. *)
Definition same_letter (u v : N) : Prop :=
  u = v
  \/ ((65 <= u <= 90)%N /\ v = (u + 32)%N)
  \/ ((65 <= v <= 90)%N /\ u = (v + 32)%N).

(** [hay] contains [needle] case-insensitively: some substring of [hay]
    equals [needle] letter by letter up to case. *)
Definition contains_ci (hay needle : list N) : Prop :=
  exists pre mid post,
    hay = pre ++ mid ++ post /\ Forall2 same_letter mid needle.

(** The lower-cased [hay] contains the lower-cased [needle]. *)
Definition lowered_contains (toLowerCase : list N -> list N)
  (hay needle : list N) : Prop :=
  exists pre post, toLowerCase hay = pre ++ toLowerCase needle ++ post.

End JsString.

(** ** The list filter

    [filterData(rows, terms)] of the PerformanceSummary view.  The index loop
    visits [rows[0]], [rows[1]], ... and pushes the matching rows on
    [filtered]. *)

Section FilterData.
Context {Row : Type} (toLowerCase : list N -> list N) (name : Row -> list N).

Definition filterData (rows : list Row) (terms : list N) : list Row :=
  let terms := toLowerCase terms in
  fold_left
    (fun filtered row =>
       if JsString.includes (toLowerCase (name row)) terms
       then filtered ++ [row]
       else filtered)
    rows [].
End FilterData.

(** ** Route queries

    [route.query] maps a key to a string or to [null] (a key written without
    a value); a key that is not in the map reads as [undefined].  Keys that
    occur more than once in the URL are left out of the model.  The object
    handed to [router.replace] or [router.push] may also carry [undefined]
    for a key; the router drops those keys when it builds the new
    location. *)

Inductive QVal :=
| QNull
| QStr (s : string).

#[global] Instance QVal_eq_dec : EqDecision QVal.
Proof. solve_decision. Defined.

Abbreviation Query := (gmap string QVal).
(** Value [None] is [undefined]. *)
Abbreviation RawQuery := (gmap string (option QVal)).

(** Truthiness of [params.key]. *)
Definition truthy (v : option QVal) : bool :=
  match v with
  | Some (QStr s) => negb (String.eqb s EmptyString)
  | _ => false
  end.

(** The values of [params.key] a condition takes as false: the key is not
    there, or it has no value ([null]), or its value is the empty string. *)
Definition falsy (v : option QVal) : Prop :=
  v = None \/ v = Some QNull \/ v = Some (QStr EmptyString).

(** [v ?? d] *)
Definition nullish_or (v : option QVal) (d : QVal) : QVal :=
  match v with
  | Some (QStr s) => QStr s
  | _ => d
  end.

(** The string a truthy query value stands for. *)
Definition str_of (v : option QVal) : string :=
  match v with
  | Some (QStr s) => s
  | _ => EmptyString
  end.

Definition normalizeQuery (q : RawQuery) : Query := omap id q.

(** ** The date utilities

    The component imports [parseDuration], [generateDurationLabel],
    [getDurationObjectFromParams] and [getQueryParamsForDuration] from
    [@/utils/date] and [getConsumableDateTime] from [@/utils/commons.ts].
    The component is embedded over any implementation of them. *)

(** A value held by [selectedDate] or [currentDurationSelectionObj]: the
    initial [{}] of [currentDurationSelectionObj], [undefined], or a duration
    object.  Objects are compared by identity, so an object carries the
    address it was allocated at. *)
Inductive DurationValue (Sel : Type) :=
| EmptyObject
| Undefined
| Object (id : nat) (val : Sel).
Arguments EmptyObject {Sel}.
Arguments Undefined {Sel}.
Arguments Object {Sel} id val.

Definition value_of {Sel} (v : DurationValue Sel) : option Sel :=
  match v with
  | Object _ s => Some s
  | _ => None
  end.

Class DateUtils := {
  Sel : Type;
  TimeObj : Type;
  Instant : Type;
  parseDuration : string -> nat;
  generateDurationLabel : nat -> string;
  getDurationObjectFromParams : Query -> option Sel;
  getQueryParamsForDuration : option Sel -> RawQuery;
  getConsumableDateTime : Instant -> DurationValue Sel -> TimeObj;
}.

(** *** A model of [@/utils/date] *)

Module DateModel.

(** Modelled from the spec: [TimeRangeSelection], the data of
    [@/utils/date], which is not among the sources.  "Either a relative
    duration (e.g., last 15 minutes) or an absolute {from, to} timestamp
    pair.  Exactly one representation is active at a time." *)
Inductive TimeRangeSelection :=
| Relative (period : string)
| Absolute (from to : string).

#[global] Instance TimeRangeSelection_eq_dec : EqDecision TimeRangeSelection.
Proof. solve_decision. Defined.

Definition digit_of (c : ascii) : option nat :=
  let n := nat_of_ascii c in
  if ((48 <=? n) && (n <=? 57))%nat then Some (n - 48) else None.

(** Reads the digits at the head of [s]: their value on top of [acc], and
    the rest of the string. *)
Fixpoint read_digits (s : string) (acc : nat) : nat * string :=
  match s with
  | EmptyString => (acc, EmptyString)
  | String c s' =>
      match digit_of c with
      | Some d => read_digits s' (10 * acc + d)
      | None => (acc, s)
      end
  end.

Definition starts_with_digit (s : string) : bool :=
  match s with
  | EmptyString => false
  | String c _ => bool_decide (is_Some (digit_of c))
  end.

Definition digits (n : nat) : string := NilEmpty.string_of_uint (Nat.to_uint n).

(** Modelled from the spec: the duration parser of [@/utils/date], which is
    not among the sources.  "Duration parser: string -> RefreshInterval,
    tolerant of malformed input"; "fails silently/defaults to 0 on malformed
    input"; "Given {refresh:"30s"}, RefreshInterval resolves to 30 seconds".
    A duration is a number followed by the unit [s] (seconds) or [m]
    (minutes, as in the period "15m"); a RefreshInterval is a number of
    seconds. *)
Definition parseDuration (s : string) : nat :=
  if starts_with_digit s then
    match read_digits s 0 with
    | (n, "s") => n
    | (n, "m") => 60 * n
    | _ => 0
    end
  else 0.

(** Modelled from the spec: the label generator of [@/utils/date], which is
    not among the sources.  "Duration label generator: RefreshInterval ->
    string, inverse of the parser."  Whole minutes are written with the unit
    [m], every other interval in seconds. *)
Definition generateDurationLabel (r : nat) : string :=
  if ((0 <? r) && (r mod 60 =? 0))%nat then digits (r / 60) +:+ "m"
  else digits r +:+ "s".

(** Modelled from the spec: the serializer of a TimeRangeSelection of
    [@/utils/date], which is not among the sources.  The keys are the ones
    the spec names: "whatever keys the duration-serialization collaborator
    produces for absolute/relative ranges (e.g., period, or from/to)".
    Without a selection it produces no key. *)
Definition getQueryParamsForDuration (s : option TimeRangeSelection) : RawQuery :=
  match s with
  | Some (Relative p) => {[ "period" := Some (QStr p) ]}
  | Some (Absolute f t) => <[ "from" := Some (QStr f) ]> {[ "to" := Some (QStr t) ]}
  | None => ∅
  end.

(** Modelled from the spec: the parser of a TimeRangeSelection of
    [@/utils/date], which is not among the sources.  "If period is present,
    or both to and from are present, derives a TimeRangeSelection from
    them." *)
Definition getDurationObjectFromParams (params : Query) : option TimeRangeSelection :=
  match params !! "period" with
  | Some (QStr p) => Some (Relative p)
  | _ =>
      match params !! "from", params !! "to" with
      | Some (QStr f), Some (QStr t) => Some (Absolute f t)
      | _, _ => None
      end
  end.

(** Modelled from the spec: [getConsumableDateTime] of [@/utils/commons.ts],
    which is not among the sources.  "Consumable time object: concrete
    {start, end} instant pair derived from a TimeRangeSelection"; a relative
    period covers the time "preceding now".  Instants are seconds; an
    absolute bound is a number of seconds written in decimal. *)
Definition getConsumableDateTime (now : nat) (v : DurationValue TimeRangeSelection)
  : nat * nat :=
  match v with
  | Object _ (Relative p) => (now - parseDuration p, now)
  | Object _ (Absolute f t) => (fst (read_digits f 0), fst (read_digits t 0))
  | _ => (now, now)
  end.

#[global] Instance model : DateUtils :=
  Build_DateUtils TimeRangeSelection (nat * nat) nat
    parseDuration generateDurationLabel
    getDurationObjectFromParams getQueryParamsForDuration
    getConsumableDateTime.

End DateModel.

(** ** The PerformanceSummary view *)

Module PerformanceSummary.
Section Component.
Context {U : DateUtils}.

(** Calls that leave the component. *)
Inductive Effect :=
| RouterReplace (query : RawQuery)
| RouterPush (path : string) (query : RawQuery)
| DispatchEvent (type : string).

Definition is_navigation (e : Effect) : bool :=
  match e with
  | DispatchEvent _ => false
  | _ => true
  end.

(** The refs of [setup()], the parts of the store and of the route the
    script reads, the allocation counter for duration objects, and the
    effect log. *)
Record State := mkState {
  org_identifier : string;
  route_path : string;
  route_query : Query;
  showDashboardSettingsDialog : bool;
  currentDurationSelectionObj : DurationValue Sel;
  (** [None] is the initial [{}]. *)
  currentTimeObj : option TimeObj;
  refreshInterval : nat;
  selectedDate : DurationValue Sel;
  next_id : nat;
  effects : list Effect;
}.

(** The state [setup()] leaves behind. *)
Definition init (org path : string) (query : Query) : State :=
  {| org_identifier := org;
     route_path := path;
     route_query := query;
     showDashboardSettingsDialog := false;
     currentDurationSelectionObj := EmptyObject;
     currentTimeObj := None;
     refreshInterval := 0;
     selectedDate := Undefined;
     next_id := 0;
     effects := [] |}.

Definition set_route (path : string) (query : Query) (st : State) : State :=
  mkState (org_identifier st) path query
    (showDashboardSettingsDialog st) (currentDurationSelectionObj st)
    (currentTimeObj st) (refreshInterval st) (selectedDate st) (next_id st)
    (effects st).

Definition set_showDashboardSettingsDialog (b : bool) (st : State) : State :=
  mkState (org_identifier st) (route_path st) (route_query st)
    b (currentDurationSelectionObj st)
    (currentTimeObj st) (refreshInterval st) (selectedDate st) (next_id st)
    (effects st).

Definition set_currentDurationSelectionObj (v : DurationValue Sel) (st : State)
  : State :=
  mkState (org_identifier st) (route_path st) (route_query st)
    (showDashboardSettingsDialog st) v
    (currentTimeObj st) (refreshInterval st) (selectedDate st) (next_id st)
    (effects st).

Definition set_currentTimeObj (t : TimeObj) (st : State) : State :=
  mkState (org_identifier st) (route_path st) (route_query st)
    (showDashboardSettingsDialog st) (currentDurationSelectionObj st)
    (Some t) (refreshInterval st) (selectedDate st) (next_id st)
    (effects st).

Definition set_refreshInterval (n : nat) (st : State) : State :=
  mkState (org_identifier st) (route_path st) (route_query st)
    (showDashboardSettingsDialog st) (currentDurationSelectionObj st)
    (currentTimeObj st) n (selectedDate st) (next_id st)
    (effects st).

Definition set_selectedDate (v : DurationValue Sel) (st : State) : State :=
  mkState (org_identifier st) (route_path st) (route_query st)
    (showDashboardSettingsDialog st) (currentDurationSelectionObj st)
    (currentTimeObj st) (refreshInterval st) v (next_id st)
    (effects st).

Definition set_next_id (n : nat) (st : State) : State :=
  mkState (org_identifier st) (route_path st) (route_query st)
    (showDashboardSettingsDialog st) (currentDurationSelectionObj st)
    (currentTimeObj st) (refreshInterval st) (selectedDate st) n
    (effects st).

Definition emit (e : Effect) (st : State) : State :=
  mkState (org_identifier st) (route_path st) (route_query st)
    (showDashboardSettingsDialog st) (currentDurationSelectionObj st)
    (currentTimeObj st) (refreshInterval st) (selectedDate st) (next_id st)
    (effects st ++ [e]).

(** *** The router *)

(** [router.replace({ query })]: the path stays, the query of the current
    entry becomes the normalized [query]. *)
Definition router_replace (query : RawQuery) (st : State) : State :=
  set_route (route_path st) (normalizeQuery query)
    (emit (RouterReplace query) st).

(** [router.push({ path, query })] *)
Definition router_push (path : string) (query : RawQuery) (st : State) : State :=
  set_route path (normalizeQuery query) (emit (RouterPush path query) st).

(** *** Functions of [setup()] *)

Definition addSettingsData (st : State) : State :=
  set_showDashboardSettingsDialog true st.

Definition goBackToDashboardList (st : State) : State :=
  router_push "/dashboards"
    (<[ "dashboard" := route_query st !! "dashboard" ]>
       {[ "folder" := Some (nullish_or (route_query st !! "folder") (QStr "default")) ]})
    st.

Definition addPanelData (st : State) : State :=
  router_push "/dashboards/add_panel"
    (<[ "dashboard" := route_query st !! "dashboard" ]>
       {[ "folder" := Some (nullish_or (route_query st !! "folder") (QStr "default")) ]})
    st.

Definition refreshData (now : Instant) (st : State) : State :=
  set_currentTimeObj
    (getConsumableDateTime now (currentDurationSelectionObj st)) st.

(** The callback of [watch(selectedDate, ...)]. *)
Definition onTimeRangeChanged (now : Instant) (st : State) : State :=
  let st := set_currentDurationSelectionObj (selectedDate st) st in
  set_currentTimeObj
    (getConsumableDateTime now (currentDurationSelectionObj st)) st.

(** How a callback ends: it runs to its end, or a call it makes throws and
    it stops in the state it had reached. *)
Inductive Completion :=
| Completed (st : State)
| Threw (st : State).

(** The callback of [watch(selectedDate, ...)] when the call of
    [getConsumableDateTime] may throw: [consumable v] is [None] for a call
    that throws. *)
Definition onTimeRangeChanged_try
  (consumable : DurationValue Sel -> option TimeObj) (st : State) : Completion :=
  let st := set_currentDurationSelectionObj (selectedDate st) st in
  match consumable (currentDurationSelectionObj st) with
  | Some t => Completed (set_currentTimeObj t st)
  | None => Threw st
  end.

(** The object literal of the second watcher.  The four named keys are
    written first and the spread of [getQueryParamsForDuration] last, so a
    key of the spread wins. *)
Definition stateQuery (st : State) : RawQuery :=
  getQueryParamsForDuration (value_of (selectedDate st))
  ∪ <[ "org_identifier" := Some (QStr (org_identifier st)) ]>
      (<[ "dashboard" := route_query st !! "dashboard" ]>
         (<[ "folder" := route_query st !! "folder" ]>
            {[ "refresh" :=
                 Some (QStr (generateDurationLabel (refreshInterval st))) ]})).

(** The four keys the literal names, key by key: the organization, the
    dashboard and the folder of the route [route], and the label of the
    refresh interval. *)
Definition named_entry (org : string) (route : Query) (interval : nat)
  (k : string) : option (option QVal) :=
  if decide (k = "org_identifier") then Some (Some (QStr org))
  else if decide (k = "dashboard") then Some (route !! "dashboard")
  else if decide (k = "folder") then Some (route !! "folder")
  else if decide (k = "refresh")
       then Some (Some (QStr (generateDurationLabel interval)))
  else None.

(** The callback of [watch([refreshInterval, selectedDate], ...)]. *)
Definition onStateChanged (st : State) : State :=
  router_replace (stateQuery st) st.

(** *** Watchers *)

(** A watcher on a ref runs when the value of the ref is no longer the one
    it last saw: numbers are compared by value, objects by identity. *)
Definition hasChanged (old new : DurationValue Sel) : bool :=
  match old, new with
  | EmptyObject, EmptyObject => false
  | Undefined, Undefined => false
  | Object i _, Object j _ => negb (i =? j)
  | _, _ => true
  end.

Definition dateChanged (old new : State) : bool :=
  hasChanged (selectedDate old) (selectedDate new).

Definition intervalChanged (old new : State) : bool :=
  negb (refreshInterval old =? refreshInterval new).

(** The watchers run in the order they were created, once the code that
    wrote the refs has finished; [old] is the state before it started. *)
Definition flush (now : Instant) (old st : State) : State :=
  let st1 := if dateChanged old st then onTimeRangeChanged now st else st in
  if dateChanged old st || intervalChanged old st
  then onStateChanged st1
  else st1.

(** *** Activation *)

(** [selectedDate.value = v] for what [getDurationObjectFromParams]
    returned: a new object, or [undefined]. *)
Definition assign_new (v : option Sel) (st : State) : State :=
  match v with
  | Some s => set_next_id (S (next_id st)) (set_selectedDate (Object (next_id st) s) st)
  | None => set_selectedDate Undefined st
  end.

(** The two conditionals of the second [onActivated] hook. *)
Definition readParams (st : State) : State :=
  let params := route_query st in
  let st1 :=
    if truthy (params !! "refresh")
    then set_refreshInterval (parseDuration (str_of (params !! "refresh"))) st
    else st in
  if truthy (params !! "period")
     || (truthy (params !! "to") && truthy (params !! "from"))
  then assign_new (getDurationObjectFromParams params) st1
  else st1.

(** The second [onActivated] hook.  The watchers run during
    [await nextTick()], before the resize event.  (The first hook calls
    [loadDashboard], which the script does not define, and touches no
    state.) *)
Definition onActivated (now : Instant) (st : State) : State :=
  emit (DispatchEvent "resize") (flush now st (readParams st)).

(** *** The view as a transition system *)

Inductive Event :=
| Activate
| SetRefreshInterval (n : nat)
| SetSelectedDate (v : DurationValue Sel)
| RefreshData
| AddSettingsData
| GoBackToDashboardList
| AddPanelData
| RouteChanged (query : Query).

Definition step (now : Instant) (st : State) (ev : Event) : State :=
  match ev with
  | Activate => onActivated now st
  | SetRefreshInterval n => flush now st (set_refreshInterval n st)
  | SetSelectedDate v => flush now st (set_selectedDate v st)
  | RefreshData => refreshData now st
  | AddSettingsData => addSettingsData st
  | GoBackToDashboardList => goBackToDashboardList st
  | AddPanelData => addPanelData st
  | RouteChanged query => set_route (route_path st) query st
  end.

(** The writes of an event to the watched refs, before the watchers run. *)
Definition writes (st : State) (ev : Event) : State :=
  match ev with
  | Activate => readParams st
  | SetRefreshInterval n => set_refreshInterval n st
  | SetSelectedDate v => set_selectedDate v st
  | _ => st
  end.

(** The query parameters of the URL are the serialization of the state. *)
Definition synchronized (st : State) : Prop :=
  route_query st = normalizeQuery (stateQuery st).

(** What an event adds to the effect log after its navigation. *)
Definition trailer (ev : Event) : list Effect :=
  match ev with
  | Activate => [DispatchEvent "resize"]
  | _ => []
  end.

Definition run (now : Instant) (st : State) (evs : list Event) : State :=
  fold_left (step now) evs st.

(** *** Reachable states

    The script writes [selectedDate] in [onActivated] only; the states the
    view reaches by its own code are those of the events other than
    [SetSelectedDate]. *)

Definition own_event (ev : Event) : bool :=
  match ev with
  | SetSelectedDate _ => false
  | _ => true
  end.

Inductive reachable : State -> Prop :=
| reachable_init org path query : reachable (init org path query)
| reachable_step now st ev :
    reachable st -> own_event ev = true -> reachable (step now st ev).

(** The events that call [router.push]. *)
Definition is_push (ev : Event) : bool :=
  match ev with
  | GoBackToDashboardList | AddPanelData => true
  | _ => false
  end.

(** The events that change the route from outside the view. *)
Definition is_route_change (ev : Event) : bool :=
  match ev with
  | RouteChanged _ => true
  | _ => false
  end.

Definition is_router_push (e : Effect) : bool :=
  match e with
  | RouterPush _ _ => true
  | _ => false
  end.

(** The selected date is [undefined] or an object allocated before. *)
Definition allocated (st : State) : Prop :=
  match selectedDate st with
  | Undefined => True
  | Object i _ => i < next_id st
  | EmptyObject => False
  end.

(** [currentDurationSelectionObj] holds the selected date, or still its
    initial [{}] while no date was ever selected. *)
Definition tracks_selection (st : State) : Prop :=
  currentDurationSelectionObj st = selectedDate st
  \/ (currentDurationSelectionObj st = EmptyObject /\ selectedDate st = Undefined).

End Component.
End PerformanceSummary.

(** ** The IngestTraces view *)

Module IngestTraces.

(** Values a field of a response or of an error can hold.  The script
    compares such a value with the empty string, joins it to a string, or
    hands it on; a value is given by what these operations see of it:
    - a number by whether it is 0 (or -0) and by the string it converts to;
    - an array or an object by the primitive value [ToPrimitive] makes of
      it (an array becomes the string of its elements joined by commas, a
      plain object the string [[object Object]]), or as one of which that
      conversion throws a TypeError.
    Symbols and BigInts are left out. *)
Inductive JsVal :=
| JUndefined
| JNull
| JBool (b : bool)
| JNum (is_zero : bool) (shown : string)
| JStr (s : string)
| JObject (primitive : JsVal)
| JUnconvertible.

(** [ToPrimitive(v)], [None] when it throws. *)
Fixpoint toPrimitive (v : JsVal) : option JsVal :=
  match v with
  | JUnconvertible => None
  | JObject p => toPrimitive p
  | _ => Some v
  end.

(** [p == EmptyString] for a primitive [p]: a string is compared as it
    is; a number or a boolean is compared with the number the empty string
    converts to, 0; [undefined] and [null] equal no string. *)
Definition primitive_eq_empty (p : JsVal) : bool :=
  match p with
  | JStr s => String.eqb s EmptyString
  | JNum is_zero _ => is_zero
  | JBool b => negb b
  | _ => false
  end.

(** [v == EmptyString], the loose comparison of JavaScript; [None] when
    converting [v] to a primitive throws. *)
Definition loose_eq_empty (v : JsVal) : option bool :=
  primitive_eq_empty <$> toPrimitive v.

Definition primitive_toString (p : JsVal) : string :=
  match p with
  | JUndefined => "undefined"
  | JNull => "null"
  | JBool true => "true"
  | JBool false => "false"
  | JNum _ shown => shown
  | JStr s => s
  | JObject _ | JUnconvertible => EmptyString
  end.

(** The string [v] becomes on the right of a string concatenation; [None]
    when converting [v] to a primitive throws. *)
Definition toString (v : JsVal) : option string :=
  primitive_toString <$> toPrimitive v.

(** [res.data.data], when it has properties to read; a property that is
    not there reads as [undefined]. *)
Record Response := mkResponse {
  token : JsVal;
  passcode : JsVal;
}.

(** What the promise resolved with: a response whose [data.data] can be
    read, or one where [res], [res.data] or [res.data.data] is [undefined]
    or [null], so that reading [res.data.data.token] throws a TypeError. *)
Inductive Body :=
| NoData
| Data (res : Response).
Coercion Data : Response >-> Body.

(** What a promise was rejected with: a value [e], given by what [e.error]
    reads, or [undefined] or [null], of which reading [e.error] throws a
    TypeError. *)
Inductive Failure :=
| mkFailure (error : JsVal)
| NullishReason.

(** The TypeError a callback throws; it has no [error] property. *)
Definition typeError : Failure := mkFailure JUndefined.

Inductive Outcome :=
| Resolved (body : Body)
| Rejected (e : Failure).

Inductive Severity := Positive | Negative.

(** The argument of [q.notify]. *)
Record Notification := mkNotification {
  type : Severity;
  message : string;
  timeout : nat;
}.

Inductive Request :=
| get_organization_passcode (org : string)
| update_organization_passcode (org : string).

Record State := mkState {
  (** [store.state.selectedOrganization.identifier] *)
  selectedOrganization : string;
  (** the passcode the store keeps *)
  organizationPasscode : JsVal;
  currentOrgIdentifier : string;
  confirmUpdate : bool;
  (** calls of [organizationsService] *)
  requests : list Request;
  (** calls of [q.notify] *)
  notifications : list Notification;
  (** calls of [store.dispatch] *)
  dispatched : list (string * JsVal);
  (** buttons reported to [segment.track] *)
  tracked : list string;
  (** rejections no handler took *)
  unhandled : list Failure;
}.

Definition init (org : string) (stored : JsVal) : State :=
  mkState org stored org false [] [] [] [] [].

Definition request (r : Request) (st : State) : State :=
  mkState (selectedOrganization st) (organizationPasscode st)
    (currentOrgIdentifier st) (confirmUpdate st)
    (requests st ++ [r]) (notifications st) (dispatched st) (tracked st)
    (unhandled st).

Definition notify (n : Notification) (st : State) : State :=
  mkState (selectedOrganization st) (organizationPasscode st)
    (currentOrgIdentifier st) (confirmUpdate st)
    (requests st) (notifications st ++ [n]) (dispatched st) (tracked st)
    (unhandled st).

(** Modelled from the spec: the store action [setOrganizationPasscode]; the
    store is not among the sources.  The action stores the passcode ("no
    passcode is stored" when it is not dispatched). *)
Definition dispatch_setOrganizationPasscode (p : JsVal) (st : State) : State :=
  mkState (selectedOrganization st) p
    (currentOrgIdentifier st) (confirmUpdate st)
    (requests st) (notifications st)
    (dispatched st ++ [("setOrganizationPasscode", p)]) (tracked st)
    (unhandled st).

Definition set_currentOrgIdentifier (org : string) (st : State) : State :=
  mkState (selectedOrganization st) (organizationPasscode st)
    org (confirmUpdate st)
    (requests st) (notifications st) (dispatched st) (tracked st)
    (unhandled st).

Definition track (button : string) (st : State) : State :=
  mkState (selectedOrganization st) (organizationPasscode st)
    (currentOrgIdentifier st) (confirmUpdate st)
    (requests st) (notifications st) (dispatched st) (tracked st ++ [button])
    (unhandled st).

Definition unhandled_rejection (e : Failure) (st : State) : State :=
  mkState (selectedOrganization st) (organizationPasscode st)
    (currentOrgIdentifier st) (confirmUpdate st)
    (requests st) (notifications st) (dispatched st) (tracked st)
    (unhandled st ++ [e]).

Definition showUpdateDialogFn (st : State) : State :=
  mkState (selectedOrganization st) (organizationPasscode st)
    (currentOrgIdentifier st) true
    (requests st) (notifications st) (dispatched st) (tracked st)
    (unhandled st).

(** The [then] callback of [getOrganizationPasscode] and what becomes of a
    rejection: the chain has a [then] and no [catch], so a rejection of the
    promise, and a TypeError thrown in the callback, stay unhandled.  The
    callback reads the selected organization when it runs. *)
Definition fetch_settled (o : Outcome) (st : State) : State :=
  match o with
  | Resolved (Data res) =>
      match loose_eq_empty (token res) with
      | Some true =>
          notify (mkNotification Negative "API Key not found." 5000) st
      | Some false =>
          let st := dispatch_setOrganizationPasscode (passcode res) st in
          set_currentOrgIdentifier (selectedOrganization st) st
      | None => unhandled_rejection typeError st
      end
  | Resolved NoData => unhandled_rejection typeError st
  | Rejected e => unhandled_rejection e st
  end.

(** The call of the service at the start of [getOrganizationPasscode]. *)
Definition fetch_sent (st : State) : State :=
  request (get_organization_passcode (selectedOrganization st)) st.

(** [getOrganizationPasscode()], with the outcome of the promise of
    [get_organization_passcode], when nothing else happens before the
    promise settles. *)
Definition getOrganizationPasscode (o : Outcome) (st : State) : State :=
  let st := request (get_organization_passcode (selectedOrganization st)) st in
  fetch_settled o st.

(** The [catch] callback of [updatePasscode].  It takes the rejection of
    the promise and the TypeError thrown in the [then] callback; reading
    [e.error] of [undefined] or [null], or joining an [e.error] that cannot
    be made a primitive, throws a TypeError in turn, which no handler
    takes. *)
Definition reset_catch (e : Failure) (st : State) : State :=
  match e with
  | NullishReason => unhandled_rejection typeError st
  | mkFailure error =>
      match toString error with
      | Some s =>
          notify (mkNotification Negative
                    ("Error while updating Token." +:+ s) 5000) st
      | None => unhandled_rejection typeError st
      end
  end.

(** [updatePasscode()], with the outcome of the promise of
    [update_organization_passcode].  [segment.track] is called before the
    promise settles. *)
Definition updatePasscode (o : Outcome) (st : State) : State :=
  let st := request (update_organization_passcode (selectedOrganization st)) st in
  let st := track "Update Passcode" st in
  match o with
  | Resolved (Data res) =>
      match loose_eq_empty (token res) with
      | Some true =>
          notify (mkNotification Negative "API Key not found." 5000) st
      | Some false =>
          let st := notify (mkNotification Positive "Token reset successfully." 5000) st in
          let st := dispatch_setOrganizationPasscode (passcode res) st in
          set_currentOrgIdentifier (selectedOrganization st) st
      | None => reset_catch typeError st
      end
  | Resolved NoData => reset_catch typeError st
  | Rejected e => reset_catch e st
  end.

(** The two credential operations. *)
Inductive Operation := FetchPasscode | ResetPasscode.

Definition perform (op : Operation) : Outcome -> State -> State :=
  match op with
  | FetchPasscode => getOrganizationPasscode
  | ResetPasscode => updatePasscode
  end.

(** [copyToClipboardFn(content)] for a [content] that has an [innerText],
    with whether [copyToClipboard] resolved. *)
Definition copyToClipboardFn (copied : bool) (st : State) : State :=
  let st := track "Copy to Clipboard" st in
  if copied
  then notify (mkNotification Positive "Content Copied Successfully!" 5000) st
  else notify (mkNotification Negative "Error while copy content." 5000) st.

(** What the user does on the page, with the outcome of the promise the
    action starts. *)
Inductive Command :=
| Credential (op : Operation) (o : Outcome)
| Copy (copied : bool)
| ShowUpdateDialog.

Definition exec (st : State) (c : Command) : State :=
  match c with
  | Credential op o => perform op o st
  | Copy copied => copyToClipboardFn copied st
  | ShowUpdateDialog => showUpdateDialogFn st
  end.

Definition run (cs : list Command) (st : State) : State :=
  fold_left exec cs st.

(** The request of a credential operation for the organization [org]. *)
Definition request_of (org : string) (op : Operation) : Request :=
  match op with
  | FetchPasscode => get_organization_passcode org
  | ResetPasscode => update_organization_passcode org
  end.

(** The request a command sends for the organization [org], if any. *)
Definition request_made (org : string) (c : Command) : option Request :=
  match c with
  | Credential op _ => Some (request_of org op)
  | _ => None
  end.

(** The [then] callback throws: there is no [data.data] to read the token
    of, or the token cannot be made a primitive for the comparison. *)
Definition then_throws (o : Outcome) : Prop :=
  o = Resolved NoData
  \/ exists res, o = Resolved (Data res) /\ toPrimitive (token res) = None.

(** The [catch] callback of [updatePasscode] throws on the reason [e]. *)
Definition catch_throws (e : Failure) : Prop :=
  e = NullishReason
  \/ exists error, e = mkFailure error /\ toPrimitive error = None.

(** The rejection a command leaves without a handler, if any: the fetch
    has no [catch], so it leaves the rejection of its promise and the
    TypeError of its [then] callback; the reset leaves the TypeError of its
    [catch] callback. *)
Definition left_unhandled (c : Command) : option Failure :=
  match c with
  | Credential FetchPasscode (Rejected e) => Some e
  | Credential FetchPasscode (Resolved NoData) => Some typeError
  | Credential FetchPasscode (Resolved (Data res)) =>
      match toPrimitive (token res) with
      | None => Some typeError
      | Some _ => None
      end
  | Credential ResetPasscode (Rejected NullishReason) => Some typeError
  | Credential ResetPasscode (Rejected (mkFailure error)) =>
      match toPrimitive error with
      | None => Some typeError
      | Some _ => None
      end
  | _ => None
  end.

(** The values [v == EmptyString] holds for: the empty string, a number
    that is 0, [false], and an array or object that becomes one of these. *)
Definition loosely_empty (v : JsVal) : Prop :=
  exists p, toPrimitive v = Some p
            /\ (p = JStr EmptyString
                \/ (exists shown, p = JNum true shown)
                \/ p = JBool false).

(** The route names of the ingestion pages the script tests for. *)
Definition on_ingest_route (p_route : string) : Prop :=
  p_route = "ingestTraces" \/ p_route = "tracesOTLP".

(** *** The route of the page *)

(** The store changes the selected organization. *)
Definition set_selectedOrganization (org : string) (st : State) : State :=
  mkState org (organizationPasscode st)
    (currentOrgIdentifier st) (confirmUpdate st)
    (requests st) (notifications st) (dispatched st) (tracked st)
    (unhandled st).

(** The view with the name of the current route and the calls of
    [router.push], each with its route name and its [org_identifier]. *)
Record Page := mkPage {
  view : State;
  routeName : string;
  pushes : list (string * string);
}.

Definition router_push (name org : string) (p : Page) : Page :=
  mkPage (view p) name (pushes p ++ [(name, org)]).

Definition ingestRoutes : list string := ["tracesOTLP"].

(** The [onMounted] hook, with the outcome of the fetch it may start. *)
Definition onMounted (o : Outcome) (p : Page) : Page :=
  if existsb (String.eqb (routeName p)) ingestRoutes then
    router_push (routeName p) (selectedOrganization (view p)) p
  else if String.eqb (routeName p) "ingestTraces" then
    router_push "tracesOTLP" (selectedOrganization (view p)) p
  else
    mkPage (getOrganizationPasscode o (view p)) (routeName p) (pushes p).

(** The watcher [selectedOrg(newVal, oldVal)] of the options block: it
    calls [getOrganizationPasscode], whose request leaves at once and whose
    promise settles later. *)
Definition watch_selectedOrg (newVal oldVal : string) (p : Page) : Page :=
  if negb (String.eqb newVal oldVal)
     && (String.eqb (routeName p) "ingestTraces"
         || String.eqb (routeName p) "tracesOTLP")
  then mkPage (fetch_sent (view p)) (routeName p) (pushes p)
  else p.

(** The store selects the organization [org]; the computed [selectedOrg]
    changes with it and its watcher runs when the value is a new one. *)
Definition selectOrganization (org : string) (p : Page) : Page :=
  let old := selectedOrganization (view p) in
  let p' := mkPage (set_selectedOrganization org (view p)) (routeName p) (pushes p) in
  if String.eqb org old then p' else watch_selectedOrg org old p'.

(** The promise of a fetch that was sent settles with the outcome [o]. *)
Definition fetchSettles (o : Outcome) (p : Page) : Page :=
  mkPage (fetch_settled o (view p)) (routeName p) (pushes p).

(** The response brings a token the script accepts: one that can be
    compared with the empty string and is not equal to it. *)
Definition accepted (o : Outcome) : Prop :=
  exists res, o = Resolved (Data res)
              /\ loose_eq_empty (token res) = Some false.

End IngestTraces.

(** * Properties *)

(** ** Strings *)

Section StringFacts.
Import JsString.

Lemma startsWith_app (s t : list N) :
  startsWith s t = true <-> exists post, s = t ++ post.
Proof.
  revert s. induction t as [|u t IH]; intros s; simpl.
  - split; [intros _; exists s; reflexivity | reflexivity].
  - destruct s as [|v s].
    + split; [discriminate | intros [post H]; discriminate].
    + rewrite andb_true_iff, N.eqb_eq, IH. split.
      * intros [-> [post ->]]. eauto.
      * intros [post H]. injection H as -> ->. eauto.
Qed.

Lemma includes_app (s t : list N) :
  includes s t = true <-> exists pre post, s = pre ++ t ++ post.
Proof.
  induction s as [|c s IH]; cbn [includes].
  - destruct (startsWith [] t) eqn:E.
    + apply startsWith_app in E as [post E]. split; [|intros _; reflexivity].
      intros _. exists [], post. exact E.
    + split; [discriminate|]. intros (pre & post & H).
      destruct pre; [|discriminate]. simpl in H.
      assert (startsWith [] t = true) by (apply startsWith_app; eauto).
      congruence.
  - destruct (startsWith (c :: s) t) eqn:E.
    + apply startsWith_app in E as [post E]. split; [|intros _; reflexivity].
      intros _. exists [], post. exact E.
    + rewrite IH. split.
      * intros (pre & post & ->). exists (c :: pre), post. reflexivity.
      * intros (pre & post & H). destruct pre as [|d pre]; simpl in H.
        -- assert (startsWith (c :: s) t = true)
             by (apply startsWith_app; eauto).
           congruence.
        -- injection H as _ ->. eauto.
Qed.

(** Lower-casing sends two ASCII characters to the same one exactly when
    they are the same letter up to case. *)
Lemma asciiLowerUnit_same_letter (u v : N) :
  asciiLowerUnit u = asciiLowerUnit v <-> same_letter u v.
Proof.
  unfold asciiLowerUnit, isUpper, same_letter.
  destruct (65 <=? u)%N eqn:U1; destruct (u <=? 90)%N eqn:U2;
    destruct (65 <=? v)%N eqn:V1; destruct (v <=? 90)%N eqn:V2; simpl;
    rewrite ?N.leb_le, ?N.leb_gt in *; lia.
Qed.

Lemma asciiLower_same_letters (a b : list N) :
  asciiLower a = asciiLower b <-> Forall2 same_letter a b.
Proof.
  unfold asciiLower. split.
  - revert b. induction a as [|u a IH]; intros [|v b] H; try discriminate.
    + constructor.
    + injection H as Hu Hs. constructor; [|now apply IH].
      now apply asciiLowerUnit_same_letter.
  - induction 1 as [|u v a b Hu _ IH]; [reflexivity|].
    cbn. f_equal; [now apply asciiLowerUnit_same_letter | exact IH].
Qed.

Lemma asciiLower_split (s x y : list N) :
  asciiLower s = x ++ y ->
  exists a b, s = a ++ b /\ asciiLower a = x /\ asciiLower b = y.
Proof.
  unfold asciiLower. intros H. apply fmap_app_inv in H as (a & b & Ha & Hb & ->).
  eauto.
Qed.

(** On lower-cased ASCII text, [includes] decides containment up to case. *)
Lemma includes_contains_ci (hay needle : list N) :
  includes (asciiLower hay) (asciiLower needle) = true
  <-> contains_ci hay needle.
Proof.
  rewrite includes_app. split.
  - intros (pre & post & H).
    apply asciiLower_split in H as (a & r & -> & _ & Hr).
    apply asciiLower_split in Hr as (m & p & -> & Hm & _).
    exists a, m, p. split; [reflexivity|]. now apply asciiLower_same_letters.
  - intros (pre & mid & post & -> & Hci).
    apply asciiLower_same_letters in Hci.
    exists (asciiLower pre), (asciiLower post).
    unfold asciiLower in *. now rewrite !fmap_app, Hci.
Qed.

#[global] Instance contains_ci_dec (hay needle : list N) :
  Decision (contains_ci hay needle).
Proof.
  destruct (includes (asciiLower hay) (asciiLower needle)) eqn:E.
  - left. now apply includes_contains_ci.
  - right. intros H. apply includes_contains_ci in H. congruence.
Defined.

#[global] Instance lowered_contains_dec (toLowerCase : list N -> list N)
  (hay needle : list N) : Decision (lowered_contains toLowerCase hay needle).
Proof.
  destruct (includes (toLowerCase hay) (toLowerCase needle)) eqn:E.
  - left. now apply includes_app.
  - right. intros H. apply includes_app in H. congruence.
Defined.

End StringFacts.

(** ** The list filter *)

Section FilterFacts.
Import JsString.
Context {Row : Type} (toLowerCase : list N -> list N) (name : Row -> list N).

Lemma filterData_loop (terms : list N) (rows acc : list Row) :
  fold_left
    (fun filtered row =>
       if includes (toLowerCase (name row)) terms
       then filtered ++ [row] else filtered)
    rows acc
  = acc ++ List.filter
             (fun row => includes (toLowerCase (name row)) terms)
             rows.
Proof.
  revert acc. induction rows as [|r rows IH]; intros acc; simpl.
  - now rewrite app_nil_r.
  - rewrite IH. destruct (includes _ terms); [|reflexivity].
    now rewrite <- app_assoc.
Qed.

(** The loop keeps, in order, the rows whose lower-cased name contains the
    lower-cased query. *)
Lemma filterData_filter (rows : list Row) (terms : list N) :
  filterData toLowerCase name rows terms
  = filter (fun row => lowered_contains toLowerCase (name row) terms) rows.
Proof.
  unfold filterData. rewrite filterData_loop. simpl.
  induction rows as [|r rows IH]; [reflexivity|].
  simpl. rewrite filter_cons, IH.
  destruct (decide (lowered_contains toLowerCase (name r) terms)) as [H|H];
    destruct (includes _ _) eqn:E; try reflexivity.
  - apply includes_app in H. congruence.
  - apply includes_app in E. contradiction.
Qed.

Lemma filter_agree (P Q : Row -> Prop)
  `{forall r, Decision (P r)} `{forall r, Decision (Q r)} (rows : list Row) :
  Forall (fun r => P r <-> Q r) rows -> filter P rows = filter Q rows.
Proof.
  induction 1 as [|r rows Hr _ IH]; [reflexivity|].
  rewrite !filter_cons, IH.
  destruct (decide (P r)), (decide (Q r)); tauto.
Qed.

Hypothesis toLowerCase_ascii :
  forall s, isAscii s -> toLowerCase s = asciiLower s.

Lemma lowered_contains_ascii (hay needle : list N) :
  isAscii hay -> isAscii needle ->
  lowered_contains toLowerCase hay needle <-> contains_ci hay needle.
Proof.
  intros Hh Hn. unfold lowered_contains.
  rewrite (toLowerCase_ascii hay Hh), (toLowerCase_ascii needle Hn).
  rewrite <- includes_app. apply includes_contains_ci.
Qed.

(** On ASCII names and an ASCII query the loop keeps, in order, the rows
    whose name contains the query up to the case of letters. *)
Lemma filterData_filter_ascii (rows : list Row) (terms : list N) :
  isAscii terms -> Forall (fun r => isAscii (name r)) rows ->
  filterData toLowerCase name rows terms
  = filter (fun row => contains_ci (name row) terms) rows.
Proof.
  intros Ht Hr. rewrite filterData_filter. apply filter_agree.
  eapply Forall_impl; [exact Hr|]. intros r Hn.
  now apply lowered_contains_ascii.
Qed.
End FilterFacts.



(** ** The model of the date utilities *)

Section DateModelFacts.
Import DateModel.

Lemma read_digits_stop (rest : string) (acc : nat) :
  starts_with_digit rest = false -> read_digits rest acc = (acc, rest).
Proof.
  destruct rest as [|c rest]; simpl; [reflexivity|].
  destruct (digit_of c); [|reflexivity].
  intros H. apply bool_decide_eq_false in H. destruct H. eauto.
Qed.

Lemma read_digits_cons (c : ascii) (s : string) (acc k : nat) :
  digit_of c = Some k ->
  read_digits (String c s) acc = read_digits s (10 * acc + k).
Proof. intros H. cbn [read_digits]. now rewrite H. Qed.

Lemma read_digits_string_of_uint (d : uint) (rest : string) (acc : nat) :
  starts_with_digit rest = false ->
  read_digits (NilEmpty.string_of_uint d +:+ rest) acc
  = (Nat.of_uint_acc d acc, rest).
Proof.
  intros Hrest. revert acc.
  induction d as [|d IH|d IH|d IH|d IH|d IH|d IH|d IH|d IH|d IH|d IH];
    intros acc;
    [ now apply read_digits_stop | .. ];
    cbn [NilEmpty.string_of_uint Nat.of_uint_acc];
    match goal with
    | |- read_digits (String ?c ?a +:+ rest) _ = _ =>
        change (String c a +:+ rest) with (String c (a +:+ rest));
        let r := eval vm_compute in (digit_of c) in
        match r with
        | Some ?k => rewrite (read_digits_cons c (a +:+ rest) acc k) by reflexivity
        end
    end;
    rewrite IH, Nat.tail_mul_spec; do 2 f_equal; lia.
Qed.

Lemma digits_start (n : nat) (rest : string) :
  starts_with_digit (digits n +:+ rest) = true.
Proof.
  unfold digits. destruct (Nat.to_uint n) eqn:E; try reflexivity.
  assert (n = 0) as -> by (now rewrite <- (Unsigned.of_to n), E).
  discriminate E.
Qed.

Lemma read_digits_digits (n : nat) (rest : string) :
  starts_with_digit rest = false ->
  read_digits (digits n +:+ rest) 0 = (n, rest).
Proof.
  intros H. unfold digits. rewrite read_digits_string_of_uint by exact H.
  f_equal. apply Unsigned.of_to.
Qed.

Lemma parseDuration_seconds (n : nat) :
  parseDuration (digits n +:+ "s") = n.
Proof.
  unfold parseDuration.
  now rewrite digits_start, read_digits_digits.
Qed.

Lemma parseDuration_minutes (n : nat) :
  parseDuration (digits n +:+ "m") = 60 * n.
Proof.
  unfold parseDuration.
  now rewrite digits_start, read_digits_digits.
Qed.

Lemma parse_label (r : nat) :
  parseDuration (generateDurationLabel r) = r.
Proof.
  unfold generateDurationLabel.
  destruct ((0 <? r) && (r mod 60 =? 0)) eqn:E.
  - rewrite parseDuration_minutes.
    apply andb_true_iff in E as [_ E]. apply Nat.eqb_eq in E.
    pose proof (Nat.div_mod_eq r 60). lia.
  - apply parseDuration_seconds.
Qed.

Lemma params_roundtrip (s : TimeRangeSelection) :
  getDurationObjectFromParams
    (normalizeQuery (getQueryParamsForDuration (Some s)))
  = Some s.
Proof.
  unfold getDurationObjectFromParams, normalizeQuery.
  destruct s as [p|f t]; simpl; rewrite !lookup_omap.
  - now rewrite lookup_singleton_eq.
  - rewrite lookup_insert_ne by discriminate.
    rewrite lookup_singleton_ne by discriminate. simpl.
    rewrite lookup_insert_eq, lookup_insert_ne by discriminate.
    now rewrite lookup_singleton_eq.
Qed.
End DateModelFacts.

(** C2: in the model of the date utilities, parsing the label of a refresh
    interval gives the interval back, and reading a time-range selection
    back from the query parameters it was written to gives the selection
    back. *)
Theorem serialization_roundtrip :
  (forall r : nat,
      DateModel.parseDuration (DateModel.generateDurationLabel r) = r)
  /\ (forall s : DateModel.TimeRangeSelection,
         DateModel.getDurationObjectFromParams
           (normalizeQuery (DateModel.getQueryParamsForDuration (Some s)))
         = Some s).
Proof. split; [apply parse_label | apply params_roundtrip]. Qed.

(** ** The PerformanceSummary view *)

Section ViewFacts.
Import PerformanceSummary.
Context {U : DateUtils}.

Lemma hasChanged_same (v : DurationValue Sel) : hasChanged v v = false.
Proof. destruct v; simpl; try reflexivity. now rewrite Nat.eqb_refl. Qed.

Lemma dateChanged_same (st st' : State) :
  selectedDate st' = selectedDate st -> dateChanged st st' = false.
Proof. unfold dateChanged. intros ->. apply hasChanged_same. Qed.

Lemma intervalChanged_same (st st' : State) :
  refreshInterval st' = refreshInterval st -> intervalChanged st st' = false.
Proof. unfold intervalChanged. intros ->. now rewrite Nat.eqb_refl. Qed.

(** The watchers do not write the refs they watch. *)
Lemma flush_selectedDate now old st :
  selectedDate (flush now old st) = selectedDate st.
Proof.
  unfold flush.
  destruct (dateChanged old st); destruct (intervalChanged old st); reflexivity.
Qed.

Lemma flush_refreshInterval now old st :
  refreshInterval (flush now old st) = refreshInterval st.
Proof.
  unfold flush.
  destruct (dateChanged old st); destruct (intervalChanged old st); reflexivity.
Qed.

Lemma flush_unchanged now old st :
  dateChanged old st || intervalChanged old st = false -> flush now old st = st.
Proof.
  unfold flush. intros H. rewrite H.
  apply orb_false_iff in H as [-> _]. reflexivity.
Qed.

(** What a flush does once a watched ref has changed. *)
Lemma flush_changed now old st :
  dateChanged old st || intervalChanged old st = true ->
  flush now old st
  = onStateChanged
      (if dateChanged old st then onTimeRangeChanged now st else st).
Proof. unfold flush. now intros ->. Qed.

Lemma onTimeRangeChanged_frame now st :
  let st' := onTimeRangeChanged now st in
  org_identifier st' = org_identifier st
  /\ route_path st' = route_path st
  /\ route_query st' = route_query st
  /\ showDashboardSettingsDialog st' = showDashboardSettingsDialog st
  /\ refreshInterval st' = refreshInterval st
  /\ selectedDate st' = selectedDate st
  /\ next_id st' = next_id st
  /\ effects st' = effects st.
Proof. simpl. repeat split. Qed.

Lemma stateQuery_lookup (st : State) (k : string) :
  stateQuery st !! k
  = match getQueryParamsForDuration (value_of (selectedDate st)) !! k with
    | Some v => Some v
    | None =>
        named_entry (org_identifier st) (route_query st) (refreshInterval st) k
    end.
Proof.
  unfold stateQuery, named_entry. rewrite lookup_union.
  destruct (getQueryParamsForDuration _ !! k) as [v|] eqn:E.
  - match goal with |- Some v ∪ ?x = _ => destruct x end; reflexivity.
  - rewrite (left_id None _).
    repeat (rewrite lookup_insert; case_decide; subst;
            [ repeat (case_decide; try congruence); reflexivity | ]).
    rewrite lookup_singleton. repeat (case_decide; try congruence).
Qed.

Lemma readParams_frame (st : State) :
  org_identifier (readParams st) = org_identifier st
  /\ route_path (readParams st) = route_path st
  /\ route_query (readParams st) = route_query st
  /\ showDashboardSettingsDialog (readParams st) = showDashboardSettingsDialog st
  /\ currentDurationSelectionObj (readParams st) = currentDurationSelectionObj st
  /\ currentTimeObj (readParams st) = currentTimeObj st
  /\ effects (readParams st) = effects st.
Proof.
  unfold readParams.
  destruct (truthy (route_query st !! "refresh"));
    destruct (truthy (route_query st !! "period")
              || truthy (route_query st !! "to") && truthy (route_query st !! "from"));
    try destruct (getDurationObjectFromParams (route_query st));
    repeat split.
Qed.

Lemma writes_frame (st : State) (ev : Event) :
  org_identifier (writes st ev) = org_identifier st
  /\ route_query (writes st ev) = route_query st
  /\ effects (writes st ev) = effects st.
Proof.
  destruct ev; simpl; try (repeat split; reflexivity).
  pose proof (readParams_frame st). tauto.
Qed.

(** A flush that finds a watched ref changed ends with the replace. *)
Lemma flush_replace now (old w : State) :
  dateChanged old w || intervalChanged old w = true ->
  let st' := flush now old w in
  effects st' = effects w ++ [RouterReplace (stateQuery w)]
  /\ route_query st' = normalizeQuery (stateQuery w)
  /\ route_path st' = route_path w
  /\ org_identifier st' = org_identifier w.
Proof.
  intros H. rewrite (flush_changed now old w H).
  destruct (dateChanged old w); repeat split.
Qed.

Lemma flush_selection now (old w : State) :
  selectedDate (flush now old w) = selectedDate w
  /\ next_id (flush now old w) = next_id w
  /\ currentDurationSelectionObj (flush now old w)
     = (if dateChanged old w then selectedDate w
        else currentDurationSelectionObj w)
  /\ (dateChanged old w = true ->
      currentTimeObj (flush now old w)
      = Some (getConsumableDateTime now (selectedDate w))).
Proof.
  unfold flush.
  destruct (dateChanged old w); destruct (intervalChanged old w);
    repeat split; try discriminate; reflexivity.
Qed.

Lemma step_refs now (st : State) (ev : Event) :
  selectedDate (step now st ev) = selectedDate (writes st ev)
  /\ refreshInterval (step now st ev) = refreshInterval (writes st ev).
Proof.
  destruct ev; simpl; try (split; reflexivity).
  - unfold onActivated.
    pose proof (flush_selectedDate now st (readParams st)).
    pose proof (flush_refreshInterval now st (readParams st)).
    now split.
  - now rewrite flush_selectedDate, flush_refreshInterval.
  - now rewrite flush_selectedDate, flush_refreshInterval.
Qed.

Lemma step_changed now (st : State) (ev : Event) :
  dateChanged st (step now st ev) = dateChanged st (writes st ev)
  /\ intervalChanged st (step now st ev) = intervalChanged st (writes st ev).
Proof.
  unfold dateChanged, intervalChanged.
  destruct (step_refs now st ev) as [-> ->]. now split.
Qed.

(** An event that changes a watched ref is one of the three that write
    them, and its step ends with the replace of the second watcher. *)
Lemma step_replace now (st : State) (ev : Event) :
  dateChanged st (step now st ev) || intervalChanged st (step now st ev) = true ->
  effects (step now st ev)
  = effects st ++ RouterReplace (stateQuery (writes st ev)) :: trailer ev
  /\ route_query (step now st ev) = normalizeQuery (stateQuery (writes st ev))
  /\ org_identifier (step now st ev) = org_identifier st.
Proof.
  destruct (step_changed now st ev) as [-> ->]. intros H.
  pose proof (flush_replace now st (writes st ev) H) as (He & Hq & _ & Ho).
  destruct (writes_frame st ev) as (Wo & Wq & We).
  rewrite We in He. rewrite Wo in Ho.
  destruct ev; simpl in H;
    try (rewrite dateChanged_same, intervalChanged_same in H by reflexivity;
         discriminate H).
  - change (step now st Activate)
      with (emit (DispatchEvent "resize") (flush now st (writes st Activate))).
    unfold emit. cbn [effects route_query org_identifier trailer].
    rewrite He, <- app_assoc. auto.
  - change (step now st (SetRefreshInterval n))
      with (flush now st (writes st (SetRefreshInterval n))).
    cbn [trailer]. auto.
  - change (step now st (SetSelectedDate v))
      with (flush now st (writes st (SetSelectedDate v))).
    cbn [trailer]. auto.
Qed.

End ViewFacts.

Section ViewClaims.
Import PerformanceSummary.
Context {U : DateUtils}.

Lemma normalized_named_key (w : State) (k : string) (v : option QVal) :
  getQueryParamsForDuration (value_of (selectedDate w)) !! k = None ->
  named_entry (org_identifier w) (route_query w) (refreshInterval w) k = Some v ->
  normalizeQuery (stateQuery w) !! k = v.
Proof.
  intros Hd Hn. unfold normalizeQuery.
  rewrite lookup_omap, stateQuery_lookup, Hd, Hn. reflexivity.
Qed.

(** C4: a step that changes the refresh interval or the selected date calls
    the router exactly once, with [replace] and not with [push]; the query
    of that call holds the duration parameters of the new selection and,
    under the four named keys (unless the duration parameters define them),
    the organization, the dashboard and the folder of the route, and the
    label of the new refresh interval, and no other key. *)
Theorem state_change_issues_replace now (st : State) (ev : Event) :
  let st' := step now st ev in
  dateChanged st st' || intervalChanged st st' = true ->
  exists q : RawQuery,
    List.filter is_navigation (effects st')
    = List.filter is_navigation (effects st) ++ [RouterReplace q]
    /\ forall k : string,
        q !! k
        = match getQueryParamsForDuration (value_of (selectedDate st')) !! k with
          | Some v => Some v
          | None =>
              named_entry (org_identifier st) (route_query st)
                (refreshInterval st') k
          end.
Proof.
  intros st' H. subst st'.
  destruct (step_replace now st ev H) as (He & _ & _).
  destruct (step_refs now st ev) as [Hs Hr].
  destruct (writes_frame st ev) as (Wo & Wq & _).
  exists (stateQuery (writes st ev)). split.
  - rewrite He, List.filter_app. f_equal.
    destruct ev; reflexivity.
  - intros k. rewrite stateQuery_lookup, Hs, Hr, Wo, Wq. reflexivity.
Qed.

(** C1, amended: after a step that changes the refresh interval or the
    selected date, the query parameters of the URL are the serialization of
    the new state (provided the duration parameters do not define the
    dashboard or the folder key themselves); an activation that changes
    neither calls no router function and leaves the query parameters as they
    were. *)
Theorem query_follows_state_change now (st : State) (ev : Event) :
  let st' := step now st ev in
  (dateChanged st st' || intervalChanged st st' = true ->
   getQueryParamsForDuration (value_of (selectedDate st')) !! "dashboard" = None ->
   getQueryParamsForDuration (value_of (selectedDate st')) !! "folder" = None ->
   synchronized st')
  /\ (ev = Activate ->
      dateChanged st st' || intervalChanged st st' = false ->
      route_query st' = route_query st
      /\ effects st' = effects st ++ [DispatchEvent "resize"]).
Proof.
  intros st'. subst st'. split.
  - intros H Hd Hf.
    destruct (step_replace now st ev H) as (_ & Hq & Ho).
    destruct (step_refs now st ev) as [Hs Hr].
    destruct (writes_frame st ev) as (Wo & _ & _).
    rewrite Hs in Hd, Hf.
    unfold synchronized. rewrite Hq. f_equal.
    apply map_eq. intros k. rewrite !stateQuery_lookup, Hs, Hr, Ho, <- Wo.
    destruct (getQueryParamsForDuration _ !! k) eqn:E; [reflexivity|].
    unfold named_entry. repeat (case_decide; [subst; try reflexivity|]); [| |reflexivity].
    + f_equal. symmetry. rewrite Hq. now apply normalized_named_key.
    + f_equal. symmetry. rewrite Hq. now apply normalized_named_key.
  - intros -> H.
    destruct (step_changed now st Activate) as [Hd Hi]. rewrite Hd, Hi in H.
    change (step now st Activate)
      with (emit (DispatchEvent "resize") (flush now st (readParams st))).
    rewrite (flush_unchanged now st (readParams st) H).
    destruct (readParams_frame st) as (_ & _ & Hq & _ & _ & _ & He).
    unfold emit. cbn [route_query effects]. now rewrite Hq, He.
Qed.
Lemma truthy_spec (v : option QVal) :
  truthy v = true <-> exists s, v = Some (QStr s) /\ s <> EmptyString.
Proof.
  destruct v as [[|s]|]; simpl.
  - split; [discriminate | intros (s & H & _); discriminate].
  - rewrite negb_true_iff, String.eqb_neq. split.
    + intros H. eauto.
    + intros (s' & [= ->] & H). exact H.
  - split; [discriminate | intros (s & H & _); discriminate].
Qed.

Lemma onActivated_refs now (st : State) :
  selectedDate (onActivated now st) = selectedDate (readParams st)
  /\ refreshInterval (onActivated now st) = refreshInterval (readParams st).
Proof. apply (step_refs now st Activate). Qed.

Lemma assign_new_value (v : option Sel) (st : State) :
  value_of (selectedDate (assign_new v st)) = v
  /\ refreshInterval (assign_new v st) = refreshInterval st.
Proof. destruct v; split; reflexivity. Qed.

Lemma truthy_falsy (v : option QVal) : truthy v = false <-> falsy v.
Proof.
  unfold falsy. destruct v as [[|s]|]; simpl.
  - split; [auto | reflexivity].
  - rewrite negb_false_iff, String.eqb_eq. split.
    + intros ->. auto.
    + intros [H|[H|H]]; try discriminate. now injection H.
  - split; [auto | reflexivity].
Qed.

Lemma falsy_date_keys (q : Query) :
  falsy (q !! "period") -> falsy (q !! "to") \/ falsy (q !! "from") ->
  truthy (q !! "period") || (truthy (q !! "to") && truthy (q !! "from")) = false.
Proof.
  intros Hp Htf. apply truthy_falsy in Hp. rewrite Hp. cbn [orb].
  destruct Htf as [H|H]; apply truthy_falsy in H; rewrite H;
    [reflexivity | apply andb_false_r].
Qed.

Lemma readParams_falsy_refresh (st : State) :
  falsy (route_query st !! "refresh") ->
  refreshInterval (readParams st) = refreshInterval st.
Proof.
  intros H. apply truthy_falsy in H. unfold readParams. rewrite H.
  destruct (truthy (route_query st !! "period") || _); [|reflexivity].
  apply assign_new_value.
Qed.

Lemma readParams_falsy_date (st : State) :
  falsy (route_query st !! "period") ->
  falsy (route_query st !! "to") \/ falsy (route_query st !! "from") ->
  selectedDate (readParams st) = selectedDate st
  /\ next_id (readParams st) = next_id st.
Proof.
  intros Hp Htf. unfold readParams. rewrite (falsy_date_keys _ Hp Htf).
  now destruct (truthy (route_query st !! "refresh")).
Qed.

(** C5, amended: on activation, a [refresh] parameter that is a non-empty
    string sets the refresh interval to [parseDuration] of it; a [period]
    parameter that is a non-empty string, or [to] and [from] parameters that
    both are, set the selected date to [getDurationObjectFromParams] of the
    parameters.  A key that is present with the empty string or with no
    value ([null]) is treated as an absent one: such a [refresh] leaves the
    refresh interval as it was, and such a [period] together with such a
    [to] or such a [from] leaves the selected date, the stored selection,
    the time object and the allocation counter as they were. *)
Theorem activation_reads_truthy_keys now (st : State) :
  let params := route_query st in
  let st' := onActivated now st in
  (forall s, params !! "refresh" = Some (QStr s) -> s <> EmptyString ->
             refreshInterval st' = parseDuration s)
  /\ (truthy (params !! "period")
      || (truthy (params !! "to") && truthy (params !! "from")) = true ->
      value_of (selectedDate st') = getDurationObjectFromParams params)
  /\ (falsy (params !! "refresh") -> refreshInterval st' = refreshInterval st)
  /\ (falsy (params !! "period") ->
      falsy (params !! "to") \/ falsy (params !! "from") ->
      selectedDate st' = selectedDate st
      /\ currentDurationSelectionObj st' = currentDurationSelectionObj st
      /\ currentTimeObj st' = currentTimeObj st
      /\ next_id st' = next_id st).
Proof.
  intros params st'. subst params st'.
  destruct (onActivated_refs now st) as [Hsel Hint].
  split; [|split; [|split]].
  - intros s Hs Hne. rewrite Hint. unfold readParams.
    assert (truthy (route_query st !! "refresh") = true) as ->
        by (apply truthy_spec; eauto).
    rewrite Hs. simpl str_of.
    destruct (truthy (route_query st !! "period") || _); [|reflexivity].
    apply assign_new_value.
  - intros Hc. rewrite Hsel. unfold readParams. rewrite Hc.
    apply assign_new_value.
  - intros Hr. rewrite Hint. now apply readParams_falsy_refresh.
  - intros Hp Htf.
    destruct (readParams_falsy_date st Hp Htf) as [Hs Hn].
    destruct (readParams_frame st) as (_ & _ & _ & _ & Hd & Ht & _).
    assert (Hsame : dateChanged st (readParams st) = false)
      by now apply dateChanged_same.
    destruct (flush_selection now st (readParams st)) as (_ & Fn & Fd & _).
    assert (Ft : currentTimeObj (flush now st (readParams st))
                 = currentTimeObj (readParams st)).
    { unfold flush. rewrite Hsame.
      now destruct (intervalChanged st (readParams st)). }
    rewrite Hsel, Hs. unfold onActivated, emit.
    cbn [currentDurationSelectionObj currentTimeObj next_id].
    rewrite Fd, Hsame, Ft, Fn, Hd, Ht, Hn. auto.
Qed.

Lemma no_date_keys (q : Query) :
  q !! "period" = None -> q !! "to" = None \/ q !! "from" = None ->
  truthy (q !! "period") || (truthy (q !! "to") && truthy (q !! "from")) = false.
Proof. intros -> [-> | ->]; simpl; [reflexivity | apply andb_false_r]. Qed.

Lemma readParams_no_refresh (st : State) :
  route_query st !! "refresh" = None ->
  refreshInterval (readParams st) = refreshInterval st.
Proof.
  intros H. unfold readParams. rewrite H. simpl truthy. cbv iota.
  destruct (truthy (route_query st !! "period") || _); [|reflexivity].
  apply assign_new_value.
Qed.

Lemma readParams_no_date (st : State) :
  route_query st !! "period" = None ->
  route_query st !! "to" = None \/ route_query st !! "from" = None ->
  selectedDate (readParams st) = selectedDate st
  /\ next_id (readParams st) = next_id st.
Proof.
  intros Hp Htf. unfold readParams. rewrite (no_date_keys _ Hp Htf).
  now destruct (truthy (route_query st !! "refresh")).
Qed.

Lemma readParams_no_keys (st : State) :
  route_query st !! "refresh" = None ->
  route_query st !! "period" = None ->
  route_query st !! "to" = None \/ route_query st !! "from" = None ->
  readParams st = st.
Proof.
  intros Hr Hp Htf. unfold readParams.
  now rewrite (no_date_keys _ Hp Htf), Hr.
Qed.

(** The second watcher writes the route and the log only. *)
Lemma onStateChanged_frame (st : State) :
  org_identifier (onStateChanged st) = org_identifier st
  /\ route_path (onStateChanged st) = route_path st
  /\ showDashboardSettingsDialog (onStateChanged st) = showDashboardSettingsDialog st
  /\ currentDurationSelectionObj (onStateChanged st) = currentDurationSelectionObj st
  /\ currentTimeObj (onStateChanged st) = currentTimeObj st
  /\ next_id (onStateChanged st) = next_id st.
Proof. repeat split. Qed.

Lemma flush_frame now (old st : State) :
  org_identifier (flush now old st) = org_identifier st
  /\ route_path (flush now old st) = route_path st
  /\ showDashboardSettingsDialog (flush now old st) = showDashboardSettingsDialog st
  /\ next_id (flush now old st) = next_id st.
Proof.
  unfold flush.
  destruct (dateChanged old st); destruct (intervalChanged old st); repeat split.
Qed.

Lemma flush_date_frame now (old st : State) :
  dateChanged old st = false ->
  currentDurationSelectionObj (flush now old st) = currentDurationSelectionObj st
  /\ currentTimeObj (flush now old st) = currentTimeObj st.
Proof.
  unfold flush. intros ->.
  destruct (intervalChanged old st); repeat split.
Qed.

(** C10: activation leaves the refresh interval alone when the parameters
    have no [refresh] key (0 on a fresh view), and leaves the selected date,
    the duration selection, the time object and the allocation counter alone
    when they have no [period] key and lack [to] or [from]; with none of
    the keys it changes nothing but the log of the resize event; and it never
    writes the organization, the path or the settings dialog flag. *)
Theorem activation_frame now (st : State) :
  let params := route_query st in
  let st' := onActivated now st in
  (params !! "refresh" = None ->
   refreshInterval st' = refreshInterval st
   /\ (refreshInterval st = 0 -> refreshInterval st' = 0))
  /\ (params !! "period" = None ->
      params !! "to" = None \/ params !! "from" = None ->
      selectedDate st' = selectedDate st
      /\ currentDurationSelectionObj st' = currentDurationSelectionObj st
      /\ currentTimeObj st' = currentTimeObj st
      /\ next_id st' = next_id st)
  /\ (params !! "refresh" = None ->
      params !! "period" = None ->
      params !! "to" = None \/ params !! "from" = None ->
      st' = emit (DispatchEvent "resize") st)
  /\ (org_identifier st' = org_identifier st
      /\ route_path st' = route_path st
      /\ showDashboardSettingsDialog st' = showDashboardSettingsDialog st).
Proof.
  intros params st'. subst params st'.
  destruct (onActivated_refs now st) as [Hsel Hint].
  split; [|split; [|split]].
  - intros Hr. rewrite Hint, (readParams_no_refresh st Hr).
    split; [reflexivity | tauto].
  - intros Hp Htf.
    destruct (readParams_no_date st Hp Htf) as [Hs Hn].
    destruct (readParams_frame st) as (_ & _ & _ & _ & Hd & Ht & _).
    assert (Hsame : dateChanged st (readParams st) = false)
      by now apply dateChanged_same.
    destruct (flush_date_frame now st (readParams st) Hsame) as [Fd Ft].
    destruct (flush_frame now st (readParams st)) as (_ & _ & _ & Fn).
    rewrite Hsel, Hs. unfold onActivated, emit.
    cbn [currentDurationSelectionObj currentTimeObj next_id].
    rewrite Fd, Ft, Fn, Hd, Ht, Hn. auto.
  - intros Hr Hp Htf. unfold onActivated.
    rewrite (readParams_no_keys st Hr Hp Htf), flush_unchanged; [reflexivity|].
    now rewrite dateChanged_same, intervalChanged_same.
  - destruct (flush_frame now st (readParams st)) as (Fo & Fp & Fd & _).
    destruct (readParams_frame st) as (Ho & Hp & _ & Hd & _).
    unfold onActivated, emit.
    cbn [org_identifier route_path showDashboardSettingsDialog].
    rewrite Fo, Fp, Fd, Ho, Hp, Hd. auto.
Qed.

(** C9: the callback of the watcher of the selected date stores the new
    selection and recomputes the time object from it with
    [getConsumableDateTime]; it writes nothing else.  Whenever a step
    changes the selected date (an activation that reads it from the URL, or
    a write from outside), the step leaves the time object computed from
    the new selection and the stored selection equal to it, and
    [refreshData] at the same instant computes the same object again.  The
    callback has no way to fail of its own: it stops early only where the
    call of [getConsumableDateTime] throws, and with a
    [getConsumableDateTime] that returns it runs to its end in every
    state. *)
Theorem time_range_change_recomputes now (st : State) :
  let st' := onTimeRangeChanged now st in
  currentTimeObj st' = Some (getConsumableDateTime now (selectedDate st))
  /\ currentDurationSelectionObj st' = selectedDate st
  /\ (org_identifier st' = org_identifier st
      /\ route_path st' = route_path st
      /\ route_query st' = route_query st
      /\ showDashboardSettingsDialog st' = showDashboardSettingsDialog st
      /\ refreshInterval st' = refreshInterval st
      /\ selectedDate st' = selectedDate st
      /\ next_id st' = next_id st
      /\ effects st' = effects st)
  /\ refreshData now st' = st'
  /\ (forall v : DurationValue Sel,
         hasChanged (selectedDate st) v = true ->
         let st2 := step now st (SetSelectedDate v) in
         currentTimeObj st2 = Some (getConsumableDateTime now v)
         /\ currentDurationSelectionObj st2 = v)
  /\ (forall ev : Event,
         let st2 := step now st ev in
         dateChanged st st2 = true ->
         currentTimeObj st2
         = Some (getConsumableDateTime now (selectedDate st2))
         /\ currentDurationSelectionObj st2 = selectedDate st2)
  /\ (forall consumable : DurationValue Sel -> option TimeObj,
         (exists st1, onTimeRangeChanged_try consumable st = Threw st1)
         <-> consumable (selectedDate st) = None)
  /\ onTimeRangeChanged_try
       (fun v => Some (getConsumableDateTime now v)) st
     = Completed st'.
Proof.
  cbv zeta.
  split; [reflexivity|]. split; [reflexivity|].
  split; [repeat split|]. split; [reflexivity|].
  split; [|split; [|split; [|reflexivity]]].
  - intros v Hv. cbn [step]. unfold flush, dateChanged.
    cbn [selectedDate set_selectedDate]. rewrite Hv. split; reflexivity.
  - intros ev Hd.
    destruct (step_refs now st ev) as [Hs _].
    rewrite (proj1 (step_changed now st ev)) in Hd. rewrite Hs.
    destruct (flush_selection now st (writes st ev)) as (_ & _ & Fd & Ft).
    rewrite Hd in Fd. specialize (Ft Hd).
    destruct ev; cbn [writes] in *;
      try (rewrite dateChanged_same in Hd by reflexivity; discriminate Hd).
    + unfold step, onActivated, emit.
      cbn [currentTimeObj currentDurationSelectionObj]. now split.
    + cbn [step]. now split.
  - intros consumable. unfold onTimeRangeChanged_try.
    cbn [currentDurationSelectionObj set_currentDurationSelectionObj].
    destruct (consumable (selectedDate st)) as [t|]; split.
    + intros [st1 H]. discriminate H.
    + discriminate.
    + reflexivity.
    + intros _. eexists. reflexivity.
Qed.
End ViewClaims.

Section ViewExamples.
Import PerformanceSummary.
#[local] Existing Instance DateModel.model.

Lemma state_change_issues_replace_witness :
  let st := init "org1" "/rum/performance" {[ "dashboard" := QStr "d1" ]} in
  let st' := step (U := DateModel.model) 7 st (SetRefreshInterval 30) in
  dateChanged st st' || intervalChanged st st' = true
  /\ exists q : RawQuery,
      List.filter is_navigation (effects st')
      = List.filter is_navigation (effects st) ++ [RouterReplace q]
      /\ forall k : string,
          q !! k
          = match getQueryParamsForDuration (value_of (selectedDate st')) !! k with
            | Some v => Some v
            | None =>
                named_entry (org_identifier st) (route_query st)
                  (refreshInterval st') k
            end.
Proof.
  split; [reflexivity|].
  apply (state_change_issues_replace (U := DateModel.model) 7
           (init "org1" "/rum/performance" {[ "dashboard" := QStr "d1" ]})
           (SetRefreshInterval 30)).
  reflexivity.
Defined.

(** C1 fails as stated: a view set up on a URL that names only the dashboard
    and then activated changes no ref, so no watcher runs, and the URL still
    lacks the organization and the refresh label the serialization has. *)
Lemma url_diverges_after_activation :
  let st := step (U := DateModel.model) 7 (init "org1" "/rum/performance" {[ "dashboard" := QStr "d1" ]})
              Activate in
  route_query st = {[ "dashboard" := QStr "d1" ]}
  /\ normalizeQuery (stateQuery st) !! "org_identifier" = Some (QStr "org1")
  /\ ~ synchronized st.
Proof.
  cbv zeta. repeat split; try (vm_compute; reflexivity).
  intros H. apply (f_equal (lookup "org_identifier")) in H.
  vm_compute in H. discriminate H.
Qed.

Lemma query_follows_state_change_witness :
  let st := init "org1" "/rum/performance" {[ "dashboard" := QStr "d1" ]} in
  let st' := step (U := DateModel.model) 7 st (SetRefreshInterval 30) in
  synchronized st'
  /\ route_query st'
     = {[ "org_identifier" := QStr "org1"; "dashboard" := QStr "d1";
          "refresh" := QStr "30s" ]}.
Proof.
  split.
  - apply (proj1 (query_follows_state_change (U := DateModel.model) 7
             (init "org1" "/rum/performance" {[ "dashboard" := QStr "d1" ]})
             (SetRefreshInterval 30))); reflexivity.
  - apply (bool_decide_unpack _). vm_compute. exact I.
Defined.
(** C3 fails on the code: on a route without a [folder] key, the replace of
    the second watcher carries [folder: undefined], so the new URL has no
    folder, while [goBackToDashboardList] and [addPanelData] on the same
    route send the folder [default]. *)
Lemma replace_folder_not_defaulted :
  let st := init (U := DateModel.model) "org1" "/rum/performance"
              {[ "dashboard" := QStr "d1" ]} in
  let st' := step (U := DateModel.model) 7 st (SetRefreshInterval 30) in
  route_query st !! "folder" = None
  /\ (exists q : RawQuery,
        effects st' = [RouterReplace q]
        /\ q !! "folder" = Some None
        /\ q !! "folder" <> Some (Some (QStr "default")))
  /\ route_query st' !! "folder" = None
  /\ (exists q : RawQuery,
        effects (goBackToDashboardList st) = [RouterPush "/dashboards" q]
        /\ q !! "folder" = Some (Some (QStr "default")))
  /\ (exists q : RawQuery,
        effects (addPanelData st) = [RouterPush "/dashboards/add_panel" q]
        /\ q !! "folder" = Some (Some (QStr "default"))).
Proof.
  cbv zeta. split; [reflexivity|]. split; [|split; [reflexivity|split]].
  - eexists. split; [reflexivity|]. split; [reflexivity|].
    vm_compute. discriminate.
  - eexists. split; reflexivity.
  - eexists. split; reflexivity.
Qed.

(** C5 fails as stated: a URL that is edited to [?refresh=] (the key present,
    its value empty) leaves on activation the interval the view had, 30
    seconds, and not [parseDuration] of the value; a URL [?period=] leaves
    the selected date [undefined]. *)
Lemma activation_skips_empty_values :
  let st := run (U := DateModel.model) 7
              (init "org1" "/rum/performance" {[ "refresh" := QStr "30s" ]})
              [Activate; RouteChanged {[ "refresh" := QStr EmptyString ]}] in
  let st2 := init (U := DateModel.model) "org1" "/rum/performance"
               {[ "period" := QStr EmptyString ]} in
  (is_Some (route_query st !! "refresh")
   /\ refreshInterval (onActivated 7 st) = 30
   /\ refreshInterval (onActivated 7 st)
      <> parseDuration (str_of (route_query st !! "refresh")))
  /\ (is_Some (route_query st2 !! "period")
      /\ value_of (selectedDate (onActivated 7 st2)) = None
      /\ value_of (selectedDate (onActivated 7 st2))
         <> getDurationObjectFromParams (route_query st2)).
Proof.
  cbv zeta. split; (split; [|split]).
  - exists (QStr EmptyString). vm_compute. reflexivity.
  - vm_compute. reflexivity.
  - vm_compute. discriminate.
  - exists (QStr EmptyString). vm_compute. reflexivity.
  - vm_compute. reflexivity.
  - vm_compute. discriminate.
Qed.

Lemma activation_reads_truthy_keys_witness :
  let st := init (U := DateModel.model) "org1" "/rum/performance"
              {[ "refresh" := QStr "30s"; "period" := QStr "15m" ]} in
  let st2 := init (U := DateModel.model) "org1" "/rum/performance"
               {[ "from" := QStr "100"; "to" := QStr "200" ]} in
  let st3 := run (U := DateModel.model) 7 st
               [Activate;
                RouteChanged {[ "refresh" := QNull;
                                "period" := QStr EmptyString;
                                "from" := QStr "100" ]}] in
  refreshInterval (onActivated 7 st) = 30
  /\ value_of (selectedDate (onActivated 7 st)) = Some (DateModel.Relative "15m")
  /\ value_of (selectedDate (onActivated 7 st2))
     = Some (DateModel.Absolute "100" "200")
  /\ refreshInterval (onActivated 7 st3) = 30
  /\ selectedDate (onActivated 7 st3) = Object 0 (DateModel.Relative "15m").
Proof.
  cbv zeta. split; [|split; [|split; [|split]]].
  - rewrite (proj1 (activation_reads_truthy_keys (U := DateModel.model) 7
               (init "org1" "/rum/performance"
                  {[ "refresh" := QStr "30s"; "period" := QStr "15m" ]}))
               "30s"); [reflexivity | reflexivity | discriminate].
  - rewrite (proj1 (proj2 (activation_reads_truthy_keys (U := DateModel.model) 7
               (init "org1" "/rum/performance"
                  {[ "refresh" := QStr "30s"; "period" := QStr "15m" ]}))));
      reflexivity.
  - rewrite (proj1 (proj2 (activation_reads_truthy_keys (U := DateModel.model) 7
               (init "org1" "/rum/performance"
                  {[ "from" := QStr "100"; "to" := QStr "200" ]}))));
      reflexivity.
  - rewrite (proj1 (proj2 (proj2 (activation_reads_truthy_keys
               (U := DateModel.model) 7
               (run (U := DateModel.model) 7
                  (init "org1" "/rum/performance"
                     {[ "refresh" := QStr "30s"; "period" := QStr "15m" ]})
                  [Activate;
                   RouteChanged {[ "refresh" := QNull;
                                   "period" := QStr EmptyString;
                                   "from" := QStr "100" ]}])))));
      [reflexivity | right; left; reflexivity].
  - rewrite (proj1 (proj2 (proj2 (proj2 (activation_reads_truthy_keys
               (U := DateModel.model) 7
               (run (U := DateModel.model) 7
                  (init "org1" "/rum/performance"
                     {[ "refresh" := QStr "30s"; "period" := QStr "15m" ]})
                  [Activate;
                   RouteChanged {[ "refresh" := QNull;
                                   "period" := QStr EmptyString;
                                   "from" := QStr "100" ]}]))))
               ltac:(right; right; reflexivity)
               ltac:(left; left; reflexivity)));
      reflexivity.
Defined.

Lemma activation_frame_witness :
  let st := init (U := DateModel.model) "org1" "/rum/performance"
              {[ "dashboard" := QStr "d1"; "to" := QStr "200" ]} in
  refreshInterval (onActivated 7 st) = 0
  /\ selectedDate (onActivated 7 st) = Undefined
  /\ onActivated 7 st = emit (DispatchEvent "resize") st.
Proof.
  cbv zeta.
  pose proof (activation_frame (U := DateModel.model) 7
                (init "org1" "/rum/performance"
                   {[ "dashboard" := QStr "d1"; "to" := QStr "200" ]}))
    as (Hr & Hd & Hall & _).
  split; [|split].
  - apply Hr; reflexivity.
  - apply Hd; [reflexivity | right; reflexivity].
  - apply Hall; [reflexivity | reflexivity | right; reflexivity].
Defined.

Lemma time_range_change_recomputes_witness :
  let st := init (U := DateModel.model) "org1" "/rum/performance"
              {[ "period" := QStr "15m" ]} in
  let v := Object 0 (DateModel.Relative "15m") in
  let st2 := step (U := DateModel.model) 1000 st (SetSelectedDate v) in
  let st3 := step (U := DateModel.model) 1000 st Activate in
  (hasChanged (selectedDate st) v = true
   /\ currentTimeObj st2 = Some (100, 1000)
   /\ currentDurationSelectionObj st2 = v)
  /\ (dateChanged st st3 = true
      /\ currentTimeObj st3 = Some (100, 1000)
      /\ currentDurationSelectionObj st3 = v).
Proof.
  cbv zeta.
  destruct (time_range_change_recomputes (U := DateModel.model) 1000
              (init "org1" "/rum/performance" {[ "period" := QStr "15m" ]}))
    as (_ & _ & _ & _ & H & Hev & _).
  split.
  - split; [reflexivity|].
    exact (H (Object 0 (DateModel.Relative "15m")) eq_refl).
  - split; [reflexivity|].
    exact (Hev Activate eq_refl).
Defined.
End ViewExamples.

(** ** The IngestTraces view *)

Section IngestClaims.
Import IngestTraces.

(** C7: when the response of the fetch or of the reset carries the empty
    string as token, the handler shows one negative notification with the
    message API Key not found., dispatches nothing to the store and leaves
    the stored passcode and the organization shown as they were. *)
Theorem empty_token_notifies (op : Operation) (res : Response) (st : State) :
  token res = JStr EmptyString ->
  let st' := perform op (Resolved res) st in
  notifications st'
  = notifications st ++ [mkNotification Negative "API Key not found." 5000]
  /\ organizationPasscode st' = organizationPasscode st
  /\ dispatched st' = dispatched st
  /\ currentOrgIdentifier st' = currentOrgIdentifier st.
Proof.
  intros Ht. destruct op; simpl; unfold getOrganizationPasscode, updatePasscode;
    rewrite Ht; simpl; auto.
Qed.

Lemma empty_token_notifies_witness :
  let st := init "org1" (JStr "old-passcode") in
  let res := mkResponse (JStr EmptyString) (JStr "new-passcode") in
  (notifications (getOrganizationPasscode (Resolved res) st)
   = [mkNotification Negative "API Key not found." 5000]
   /\ organizationPasscode (getOrganizationPasscode (Resolved res) st)
      = JStr "old-passcode")
  /\ (notifications (updatePasscode (Resolved res) st)
      = [mkNotification Negative "API Key not found." 5000]
      /\ organizationPasscode (updatePasscode (Resolved res) st)
         = JStr "old-passcode").
Proof.
  cbv zeta. split.
  - destruct (empty_token_notifies FetchPasscode
                (mkResponse (JStr EmptyString) (JStr "new-passcode"))
                (init "org1" (JStr "old-passcode")) eq_refl) as (Hn & Hp & _).
    split; [exact Hn | exact Hp].
  - destruct (empty_token_notifies ResetPasscode
                (mkResponse (JStr EmptyString) (JStr "new-passcode"))
                (init "org1" (JStr "old-passcode")) eq_refl) as (Hn & Hp & _).
    split; [exact Hn | exact Hp].
Defined.

(** C8 fails on the code for the fetch: when the promise of
    [get_organization_passcode] is rejected, [getOrganizationPasscode] shows
    no notification and the rejection stays unhandled, while [updatePasscode]
    on the same rejection shows a negative notification for 5000 ms; neither
    sends a second request. *)
Lemma fetch_rejection_not_notified :
  let st := init "org1" (JStr "old-passcode") in
  let e := mkFailure (JStr " timeout") in
  (notifications (getOrganizationPasscode (Rejected e) st) = []
   /\ unhandled (getOrganizationPasscode (Rejected e) st) = [e]
   /\ requests (getOrganizationPasscode (Rejected e) st)
      = [get_organization_passcode "org1"])
  /\ (notifications (updatePasscode (Rejected e) st)
      = [mkNotification Negative "Error while updating Token. timeout" 5000]
      /\ unhandled (updatePasscode (Rejected e) st) = []
      /\ requests (updatePasscode (Rejected e) st)
         = [update_organization_passcode "org1"]).
Proof. cbv zeta. repeat split. Qed.
End IngestClaims.

(** * Further properties of the two views *)

(** ** The list filter *)

Section FilterMore.
Import JsString.
Context {Row : Type} (toLowerCase : list N -> list N) (name : Row -> list N).

Lemma contains_ci_length (hay needle : list N) :
  contains_ci hay needle -> length needle <= length hay.
Proof.
  intros (pre & mid & post & -> & H). apply Forall2_length in H.
  rewrite !length_app. lia.
Qed.

Lemma contains_ci_trans (a b c : list N) :
  contains_ci a b -> contains_ci b c -> contains_ci a c.
Proof.
  intros (p1 & m1 & q1 & -> & H1) (p2 & m2 & q2 & -> & H2).
  apply asciiLower_same_letters in H1.
  unfold asciiLower in H1. rewrite !fmap_app in H1. fold asciiLower in H1.
  apply asciiLower_split in H1 as (x & r & -> & _ & Hr).
  apply asciiLower_split in Hr as (y & z & -> & Hy & _).
  exists (p1 ++ x), y, (z ++ q1). split.
  - now rewrite <- !app_assoc.
  - apply asciiLower_same_letters. rewrite Hy.
    now apply asciiLower_same_letters.
Qed.

Lemma Forall_filter_keep (P Q : Row -> Prop) `{forall r, Decision (P r)}
  (rows : list Row) :
  Forall Q rows -> Forall Q (filter P rows).
Proof.
  induction 1 as [|r rows Hr _ IH]; [constructor|].
  rewrite filter_cons. destruct (decide (P r)); [now constructor | exact IH].
Qed.

(** An empty query keeps every row. *)
Theorem filterData_empty_query (rows : list Row) :
  toLowerCase [] = [] ->
  filterData toLowerCase name rows [] = rows.
Proof.
  intros Hnil. rewrite filterData_filter.
  induction rows as [|r rows IH]; [reflexivity|].
  rewrite filter_cons_True, IH; [reflexivity|].
  exists [], (toLowerCase (name r)). now rewrite Hnil.
Qed.

(** Filtering a list made of two parts filters each part. *)
Theorem filterData_app (rows1 rows2 : list Row) (terms : list N) :
  filterData toLowerCase name (rows1 ++ rows2) terms
  = filterData toLowerCase name rows1 terms
    ++ filterData toLowerCase name rows2 terms.
Proof. rewrite !filterData_filter. apply filter_app. Qed.

(** On ASCII names and ASCII queries: a query that extends the previous one
    (contains it up to case) can be applied to the previous result, and the
    rows are the same as when the whole list is filtered again. *)
Theorem filterData_refine (rows : list Row) (terms terms' : list N) :
  (forall s, isAscii s -> toLowerCase s = asciiLower s) ->
  Forall (fun r => isAscii (name r)) rows ->
  isAscii terms -> isAscii terms' ->
  contains_ci terms' terms ->
  filterData toLowerCase name (filterData toLowerCase name rows terms) terms'
  = filterData toLowerCase name rows terms'.
Proof.
  intros Hlow Hrows Ht Ht' H.
  rewrite (filterData_filter_ascii toLowerCase name Hlow rows terms Ht Hrows).
  rewrite !(filterData_filter_ascii toLowerCase name Hlow _ terms' Ht');
    [| exact Hrows | now apply Forall_filter_keep].
  apply list_filter_filter_l. intros r Hr.
  exact (contains_ci_trans _ _ _ Hr H).
Qed.

(** Two ASCII queries that are the same letter by letter up to case give
    the same result, whatever the rows. *)
Theorem filterData_query_case (rows : list Row) (terms terms' : list N) :
  (forall s, isAscii s -> toLowerCase s = asciiLower s) ->
  isAscii terms -> isAscii terms' ->
  Forall2 same_letter terms terms' ->
  filterData toLowerCase name rows terms
  = filterData toLowerCase name rows terms'.
Proof.
  intros Hlow Ht Ht' H. apply asciiLower_same_letters in H.
  unfold filterData. now rewrite (Hlow _ Ht), (Hlow _ Ht'), H.
Qed.

(** An ASCII query longer than every name, the names being ASCII too,
    matches no row. *)
Theorem filterData_long_query (rows : list Row) (terms : list N) :
  (forall s, isAscii s -> toLowerCase s = asciiLower s) ->
  isAscii terms ->
  Forall (fun r => isAscii (name r) /\ length (name r) < length terms) rows ->
  filterData toLowerCase name rows terms = [].
Proof.
  intros Hlow Ht H.
  rewrite (filterData_filter_ascii toLowerCase name Hlow rows terms Ht)
    by (eapply Forall_impl; [exact H | intros r [Hr _]; exact Hr]).
  induction H as [|r rows [_ Hr] _ IH]; [reflexivity|].
  rewrite filter_cons_False; [exact IH|].
  intros Hc. apply contains_ci_length in Hc. lia.
Qed.
End FilterMore.

Lemma filterData_empty_query_witness :
  filterData JsString.asciiLower (fun r : list N => r)
    [JsString.units "Alpha"; JsString.units "beta"] []
  = [JsString.units "Alpha"; JsString.units "beta"].
Proof.
  apply (filterData_empty_query JsString.asciiLower (fun r : list N => r)).
  reflexivity.
Defined.

Lemma filterData_refine_witness :
  let rows := [JsString.units "Alpha"; JsString.units "beta";
               JsString.units "Lima"] in
  JsString.contains_ci (JsString.units "lph") (JsString.units "L")
  /\ filterData JsString.asciiLower (fun r : list N => r)
       (filterData JsString.asciiLower (fun r : list N => r) rows
          (JsString.units "L"))
       (JsString.units "lph")
     = filterData JsString.asciiLower (fun r : list N => r) rows
         (JsString.units "lph").
Proof.
  cbv zeta.
  assert (H : JsString.contains_ci (JsString.units "lph") (JsString.units "L"))
    by (apply includes_contains_ci; reflexivity).
  split; [exact H|].
  apply (filterData_refine JsString.asciiLower (fun r : list N => r)
           [JsString.units "Alpha"; JsString.units "beta";
            JsString.units "Lima"]
           (JsString.units "L") (JsString.units "lph")
           (fun s _ => eq_refl));
    [ repeat constructor | repeat constructor | repeat constructor | exact H ].
Defined.

Lemma filterData_query_case_witness :
  filterData JsString.asciiLower (fun r : list N => r)
    [JsString.units "Alpha"; JsString.units "beta"] (JsString.units "AL")
  = filterData JsString.asciiLower (fun r : list N => r)
      [JsString.units "Alpha"; JsString.units "beta"] (JsString.units "al").
Proof.
  apply (filterData_query_case JsString.asciiLower (fun r : list N => r) _
           (JsString.units "AL") (JsString.units "al") (fun s _ => eq_refl));
    [ repeat constructor | repeat constructor | ].
  apply asciiLower_same_letters. reflexivity.
Defined.

Lemma filterData_long_query_witness :
  filterData JsString.asciiLower (fun r : list N => r)
    [JsString.units "Alpha"; JsString.units "beta"] (JsString.units "alphabet")
  = [].
Proof.
  apply (filterData_long_query JsString.asciiLower (fun r : list N => r) _
           (JsString.units "alphabet") (fun s _ => eq_refl));
    [ repeat constructor | ].
  repeat constructor.
Defined.

(** ** The PerformanceSummary view *)

Section ViewMore.
Import PerformanceSummary.
Context {U : DateUtils}.

Lemma state_eta (st : State) :
  mkState (org_identifier st) (route_path st) (route_query st)
    (showDashboardSettingsDialog st) (currentDurationSelectionObj st)
    (currentTimeObj st) (refreshInterval st) (selectedDate st) (next_id st)
    (effects st)
  = st.
Proof. now destruct st. Qed.

(** Writing a watched ref with the value it holds runs no watcher: the
    state, the URL and the effect log stay as they are. *)
Theorem write_same_value_noop now (st : State) :
  step now st (SetRefreshInterval (refreshInterval st)) = st
  /\ step now st (SetSelectedDate (selectedDate st)) = st.
Proof.
  split; cbn [step]; rewrite flush_unchanged;
    try (unfold set_refreshInterval, set_selectedDate; apply state_eta);
    now rewrite dateChanged_same, intervalChanged_same.
Qed.

(** What a flush adds to the log: nothing, or one replace. *)
Lemma flush_effects now (old w : State) :
  exists l, effects (flush now old w) = effects w ++ l
            /\ (l = [] \/ exists q, l = [RouterReplace q]).
Proof.
  unfold flush.
  destruct (dateChanged old w); destruct (intervalChanged old w); cbn [orb].
  - eexists. split; [reflexivity | right; eauto].
  - eexists. split; [reflexivity | right; eauto].
  - eexists. split; [reflexivity | right; eauto].
  - exists []. split; [now rewrite app_nil_r | now left].
Qed.

Lemma step_no_push now (st : State) (ev : Event) :
  is_push ev = false ->
  (is_route_change ev = false -> route_path (step now st ev) = route_path st)
  /\ exists l, effects (step now st ev) = effects st ++ l
               /\ List.filter is_router_push l = []
               /\ length (List.filter is_navigation l) <= 1.
Proof.
  intros Hp.
  destruct ev; try discriminate Hp; cbn [step].
  - destruct (flush_frame now st (readParams st)) as (_ & Fp & _).
    destruct (readParams_frame st) as (_ & Rp & _ & _ & _ & _ & Re).
    destruct (flush_effects now st (readParams st)) as (l & Hl & Hcase).
    unfold onActivated, emit. cbn [route_path effects].
    split; [intros _; congruence|].
    exists (l ++ [DispatchEvent "resize"]). rewrite Hl, Re, <- app_assoc.
    split; [reflexivity|].
    destruct Hcase as [-> | [q ->]]; simpl; auto.
  - destruct (flush_frame now st (set_refreshInterval n st)) as (_ & Fp & _).
    destruct (flush_effects now st (set_refreshInterval n st)) as (l & Hl & Hcase).
    split; [intros _; exact Fp|]. exists l. split; [exact Hl|].
    destruct Hcase as [-> | [q ->]]; simpl; auto.
  - destruct (flush_frame now st (set_selectedDate v st)) as (_ & Fp & _).
    destruct (flush_effects now st (set_selectedDate v st)) as (l & Hl & Hcase).
    split; [intros _; exact Fp|]. exists l. split; [exact Hl|].
    destruct Hcase as [-> | [q ->]]; simpl; auto.
  - split; [reflexivity|]. exists []. rewrite app_nil_r. simpl. auto.
  - split; [reflexivity|]. exists []. rewrite app_nil_r. simpl. auto.
  - split; [discriminate|]. exists []. rewrite app_nil_r. simpl. auto.
Qed.

(** Whatever sequence of activations, writes of the refs, refreshes and
    route changes from outside the view goes through, as long as neither
    [goBackToDashboardList] nor [addPanelData] is called, it never calls
    [router.push] and it calls the router at most once per event; and the
    calls of the view itself never change the path of the route: it stays
    over every such sequence without a route change from outside. *)
Theorem sync_never_pushes now (evs : list Event) (st : State) :
  Forall (fun ev => is_push ev = false) evs ->
  (exists l, effects (run now st evs) = effects st ++ l
             /\ List.filter is_router_push l = []
             /\ length (List.filter is_navigation l) <= length evs)
  /\ (Forall (fun ev => is_route_change ev = false) evs ->
      route_path (run now st evs) = route_path st).
Proof.
  intros H. revert st. induction H as [|ev evs Hev _ IH]; intros st.
  - split; [|reflexivity]. exists []. rewrite app_nil_r. simpl. auto.
  - unfold run in *. cbn [fold_left].
    destruct (step_no_push now st ev Hev) as (Hp & l1 & Hl1 & Hn1 & Hc1).
    destruct (IH (step now st ev)) as ((l2 & Hl2 & Hn2 & Hc2) & Hp2).
    split.
    + exists (l1 ++ l2). rewrite Hl2, Hl1, <- app_assoc.
      split; [reflexivity|]. rewrite !List.filter_app, Hn1, Hn2, length_app.
      split; [reflexivity|]. simpl. lia.
    + intros Hr. inversion Hr as [|? ? Hr1 Hr2]; subst.
      rewrite (Hp2 Hr2). exact (Hp Hr1).
Qed.

(** After a step that changes the refresh interval or the selected date,
    the URL carries the organization of the store, the dashboard and the
    folder it had before, and the label of the new interval, each unless the
    duration parameters define that key; a key that is neither one of these
    four nor a duration parameter is no longer in the URL. *)
Theorem replace_rewrites_query now (st : State) (ev : Event) :
  let st' := step now st ev in
  let dp := getQueryParamsForDuration (value_of (selectedDate st')) in
  dateChanged st st' || intervalChanged st st' = true ->
  (dp !! "org_identifier" = None ->
   route_query st' !! "org_identifier" = Some (QStr (org_identifier st)))
  /\ (dp !! "dashboard" = None ->
      route_query st' !! "dashboard" = route_query st !! "dashboard")
  /\ (dp !! "folder" = None ->
      route_query st' !! "folder" = route_query st !! "folder")
  /\ (dp !! "refresh" = None ->
      route_query st' !! "refresh"
      = Some (QStr (generateDurationLabel (refreshInterval st'))))
  /\ (forall k : string,
         k <> "org_identifier" -> k <> "dashboard" -> k <> "folder" ->
         k <> "refresh" -> dp !! k = None ->
         route_query st' !! k = None).
Proof.
  intros st' dp H. subst st' dp.
  destruct (step_replace now st ev H) as (_ & Hq & _).
  destruct (step_refs now st ev) as [Hs Hr].
  destruct (writes_frame st ev) as (Wo & Wq & _).
  rewrite Hs, Hr, Hq, <- Wo, <- Wq.
  repeat split.
  - intros Hd. now apply normalized_named_key.
  - intros Hd. now apply normalized_named_key.
  - intros Hd. now apply normalized_named_key.
  - intros Hd. now apply normalized_named_key.
  - intros k H1 H2 H3 H4 Hd. unfold normalizeQuery.
    rewrite lookup_omap, stateQuery_lookup, Hd. unfold named_entry.
    repeat (case_decide; [congruence|]). reflexivity.
Qed.

Lemma push_query_lookup (route : Query) (k : string) :
  normalizeQuery
    (<[ "dashboard" := route !! "dashboard" ]>
       {[ "folder" := Some (nullish_or (route !! "folder") (QStr "default")) ]})
    !! k
  = if decide (k = "dashboard") then route !! "dashboard"
    else if decide (k = "folder")
         then Some (nullish_or (route !! "folder") (QStr "default"))
         else None.
Proof.
  unfold normalizeQuery. rewrite lookup_omap, lookup_insert.
  case_decide; subst.
  - rewrite decide_True by reflexivity. now destruct (route !! "dashboard").
  - rewrite decide_False by congruence. rewrite lookup_singleton.
    case_decide; subst.
    + now rewrite decide_True by reflexivity.
    + now rewrite decide_False by congruence.
Qed.

(** [goBackToDashboardList] and [addPanelData] push a URL that always has a
    folder: the folder of the route when that is a string (an empty one
    too), and [default] when the route has none or a [null] one.  The
    dashboard is passed on as it is, every other key of the URL is left out,
    and the refs of the view are not written. *)
Theorem push_carries_folder (st : State) (ev : Event) :
  is_push ev = true ->
  forall now,
  let st' := step now st ev in
  route_query st' !! "folder"
  = Some (nullish_or (route_query st !! "folder") (QStr "default"))
  /\ (forall f, route_query st !! "folder" = Some (QStr f) ->
                route_query st' !! "folder" = Some (QStr f))
  /\ (route_query st !! "folder" = None \/ route_query st !! "folder" = Some QNull ->
      route_query st' !! "folder" = Some (QStr "default"))
  /\ route_query st' !! "dashboard" = route_query st !! "dashboard"
  /\ (forall k : string, k <> "folder" -> k <> "dashboard" ->
                         route_query st' !! k = None)
  /\ refreshInterval st' = refreshInterval st
  /\ selectedDate st' = selectedDate st
  /\ exists path q, effects st' = effects st ++ [RouterPush path q].
Proof.
  intros Hp now0.
  assert (Hq : forall k, route_query (step now0 st ev) !! k
               = if decide (k = "dashboard") then route_query st !! "dashboard"
                 else if decide (k = "folder")
                      then Some (nullish_or (route_query st !! "folder")
                                   (QStr "default"))
                      else None).
  { intros k. destruct ev; try discriminate Hp; apply push_query_lookup. }
  cbv zeta. rewrite !Hq. simpl.
  split; [reflexivity|]. split; [now intros f ->|].
  split; [now intros [-> | ->]|]. split; [reflexivity|].
  split.
  - intros k H1 H2. rewrite Hq. now rewrite !decide_False by congruence.
  - destruct ev; try discriminate Hp; cbn [step];
      (split; [reflexivity|]; split; [reflexivity|]; eexists _, _; reflexivity).
Qed.
End ViewMore.

Section ViewInvariants.
Import PerformanceSummary.
Context {U : DateUtils}.

(** An object taken from the allocation counter differs from the one held. *)
Lemma allocated_fresh (st : State) (s : Sel) :
  allocated st -> hasChanged (selectedDate st) (Object (next_id st) s) = true.
Proof.
  unfold allocated. destruct (selectedDate st) as [| |i s0]; simpl; try tauto.
  intros H. apply negb_true_iff, Nat.eqb_neq. lia.
Qed.

Lemma readParams_cases (st : State) :
  (selectedDate (readParams st) = selectedDate st
   /\ next_id (readParams st) = next_id st)
  \/ (exists s, selectedDate (readParams st) = Object (next_id st) s
               /\ next_id (readParams st) = S (next_id st))
  \/ (selectedDate (readParams st) = Undefined
      /\ next_id (readParams st) = next_id st).
Proof.
  unfold readParams.
  destruct (truthy (route_query st !! "period") || _).
  - destruct (getDurationObjectFromParams (route_query st)) as [s|].
    + right; left. exists s.
      destruct (truthy (route_query st !! "refresh")); split; reflexivity.
    + right; right.
      destruct (truthy (route_query st !! "refresh")); split; reflexivity.
  - left. destruct (truthy (route_query st !! "refresh")); split; reflexivity.
Qed.

Lemma activation_invariant now (st : State) :
  allocated st -> tracks_selection st ->
  allocated (onActivated now st) /\ tracks_selection (onActivated now st).
Proof.
  intros Ha Ht.
  destruct (flush_selection now st (readParams st)) as (Fs & Fn & Fd & _).
  destruct (readParams_frame st) as (_ & _ & _ & _ & Rd & _).
  unfold allocated, tracks_selection, onActivated, emit.
  cbn [selectedDate next_id currentDurationSelectionObj].
  rewrite Fs, Fn, Fd, Rd. unfold dateChanged.
  destruct (readParams_cases st) as [[Hs Hn] | [(s & Hs & Hn) | [Hs Hn]]];
    rewrite Hs, ?Hn.
  - rewrite hasChanged_same. split; [exact Ha | exact Ht].
  - rewrite (allocated_fresh st s Ha). split; [lia | now left].
  - split; [exact I|].
    destruct (hasChanged (selectedDate st) Undefined) eqn:E; [now left|].
    destruct (selectedDate st) eqn:Hsd; try discriminate E.
    unfold tracks_selection in Ht. rewrite Hsd in Ht. exact Ht.
Qed.

Lemma reachable_invariant (st : State) :
  reachable st -> allocated st /\ tracks_selection st.
Proof.
  induction 1 as [org path query | now st ev _ [Ha Ht] Hown].
  - split; [exact I | right; split; reflexivity].
  - destruct ev; try discriminate Hown; cbn [step].
    + now apply activation_invariant.
    + destruct (flush_selection now st (set_refreshInterval n st))
        as (Fs & Fn & Fd & _).
      unfold allocated, tracks_selection. rewrite Fs, Fn, Fd.
      rewrite dateChanged_same by reflexivity. split; [exact Ha | exact Ht].
    + split; [exact Ha | exact Ht].
    + split; [exact Ha | exact Ht].
    + split; [exact Ha | exact Ht].
    + split; [exact Ha | exact Ht].
    + split; [exact Ha | exact Ht].
Qed.

(** In every state the view reaches by its own code the selected date is
    [undefined] or an object allocated earlier, and
    [currentDurationSelectionObj] holds the selected date once there is one;
    so [refreshData] computes the time object from the selected date. *)
Theorem reachable_tracks_selection (st : State) :
  reachable st ->
  allocated st
  /\ tracks_selection st
  /\ (selectedDate st <> Undefined ->
      forall now,
        currentTimeObj (refreshData now st)
        = Some (getConsumableDateTime now (selectedDate st))).
Proof.
  intros H. destruct (reachable_invariant st H) as [Ha Ht].
  split; [exact Ha|]. split; [exact Ht|].
  intros Hne now0. unfold refreshData. cbn [currentTimeObj set_currentTimeObj].
  destruct Ht as [-> | [_ Hu]]; [reflexivity | contradiction].
Qed.

(** In a reachable state, an activation on a URL whose period, or whose to
    and from, are non-empty, and from which [getDurationObjectFromParams]
    makes a selection, always takes a new object as the selected date,
    computes the time object from it at the instant of the activation, and
    calls [router.replace] once, before the resize event. *)
Theorem activation_with_date_recomputes now (st : State) (s : Sel) :
  reachable st ->
  truthy (route_query st !! "period")
  || (truthy (route_query st !! "to") && truthy (route_query st !! "from")) = true ->
  getDurationObjectFromParams (route_query st) = Some s ->
  let st' := onActivated now st in
  selectedDate st' = Object (next_id st) s
  /\ currentDurationSelectionObj st' = Object (next_id st) s
  /\ currentTimeObj st' = Some (getConsumableDateTime now (Object (next_id st) s))
  /\ exists q, effects st' = effects st ++ [RouterReplace q; DispatchEvent "resize"].
Proof.
  intros Hr Hc Hs.
  destruct (reachable_invariant st Hr) as (Ha & _).
  assert (Hsel : selectedDate (readParams st) = Object (next_id st) s).
  { unfold readParams. rewrite Hc, Hs.
    now destruct (truthy (route_query st !! "refresh")). }
  assert (Hch : dateChanged st (readParams st) = true).
  { unfold dateChanged. rewrite Hsel. now apply allocated_fresh. }
  destruct (flush_selection now st (readParams st)) as (Fs & _ & Fd & Ft).
  destruct (readParams_frame st) as (_ & _ & _ & _ & _ & _ & Re).
  assert (Hor : dateChanged st (readParams st)
                || intervalChanged st (readParams st) = true)
    by now rewrite Hch.
  destruct (flush_replace now st (readParams st) Hor) as (He & _).
  cbv zeta. unfold onActivated, emit.
  cbn [selectedDate currentDurationSelectionObj currentTimeObj effects].
  rewrite Fs, Fd, Hch, (Ft Hch), Hsel, He, Re, <- app_assoc.
  repeat split. eexists. reflexivity.
Qed.
End ViewInvariants.

(** ** The IngestTraces view *)

Section IngestMore.
Import IngestTraces.

Lemma loose_eq_empty_spec (v : JsVal) :
  loose_eq_empty v = Some true <-> loosely_empty v.
Proof.
  unfold loose_eq_empty, loosely_empty.
  destruct (toPrimitive v) as [p|]; simpl.
  - split.
    + intros [= H]. exists p. split; [reflexivity|].
      destruct p as [| |b|z shown|s| |]; simpl in H; try discriminate H.
      * destruct b; [discriminate H | auto].
      * subst z. eauto.
      * apply String.eqb_eq in H. subst s. auto.
    + intros (q & [= <-] & [-> | [[shown ->] | ->]]); reflexivity.
  - split; [discriminate | intros (q & H & _); discriminate H].
Qed.

Lemma loose_eq_empty_throws (v : JsVal) :
  loose_eq_empty v = None <-> toPrimitive v = None.
Proof.
  unfold loose_eq_empty. destruct (toPrimitive v); simpl; split; congruence.
Qed.

Lemma toString_throws (v : JsVal) :
  toString v = None <-> toPrimitive v = None.
Proof.
  unfold toString. destruct (toPrimitive v); simpl; split; congruence.
Qed.

Lemma app_one_neq {A} (l : list A) (x : A) : l ++ [x] <> l.
Proof.
  intros H. apply (f_equal (@length _)) in H.
  rewrite length_app in H. simpl in H. lia.
Qed.

(** A response whose [data.data] can be read is answered with the
    notification API Key not found. exactly when its token compares equal
    to the empty string under [==]: when it is the empty string, a number
    that is 0, [false], or an array or object that converts to one of these
    (the empty array among them); and nothing is dispatched to the store
    exactly when the token is one of these or cannot be converted at all. *)
Theorem token_decides_storage (op : Operation) (res : Response) (st : State) :
  let st' := perform op (Resolved res) st in
  (notifications st'
   = notifications st ++ [mkNotification Negative "API Key not found." 5000]
   <-> loosely_empty (token res))
  /\ (dispatched st' = dispatched st
      <-> loosely_empty (token res) \/ toPrimitive (token res) = None).
Proof.
  cbv zeta. rewrite <- loose_eq_empty_spec, <- loose_eq_empty_throws.
  destruct op; simpl; unfold getOrganizationPasscode, updatePasscode;
    cbn [fetch_settled];
    destruct (loose_eq_empty (token res)) as [[|]|]; simpl;
    (split; split; intros H;
     try reflexivity; try discriminate H; try (now left); try (now right);
     try (destruct H; discriminate);
     try (symmetry in H; now apply app_one_neq in H);
     try (now apply app_one_neq in H);
     try (apply app_inv_head in H; discriminate H)).
Qed.

(** A response whose token is missing ([undefined]) or [null] is taken as a
    success: its passcode is dispatched and stored, the organization shown
    becomes the selected one, the reset shows the positive notification and
    the fetch shows none. *)
Theorem missing_token_accepted (op : Operation) (res : Response) (st : State) :
  token res = JUndefined \/ token res = JNull ->
  let st' := perform op (Resolved res) st in
  organizationPasscode st' = passcode res
  /\ dispatched st' = dispatched st ++ [("setOrganizationPasscode", passcode res)]
  /\ currentOrgIdentifier st' = selectedOrganization st
  /\ notifications st'
     = notifications st
       ++ match op with
          | FetchPasscode => []
          | ResetPasscode =>
              [mkNotification Positive "Token reset successfully." 5000]
          end.
Proof.
  intros [Ht | Ht]; destruct op; simpl;
    unfold getOrganizationPasscode, updatePasscode; rewrite Ht; simpl;
    rewrite ?app_nil_r; auto.
Qed.

(** The cases of a command: the two operations with each shape of
    outcome, the copy, and the dialog. *)
Ltac command_cases c :=
  let res := fresh "res" in
  let t := fresh "t" in
  destruct c as [ [ | ] [ [ | res ] | [ t | ] ] | [ | ] | ];
  cbn [exec perform left_unhandled request_made];
  unfold getOrganizationPasscode, updatePasscode, copyToClipboardFn;
  cbn [fetch_settled reset_catch];
  try (unfold loose_eq_empty; destruct (toPrimitive (token res)));
  try (unfold toString; destruct (toPrimitive t));
  cbn [fmap option_fmap option_map];
  try match goal with
      | |- context [primitive_eq_empty ?p] => destruct (primitive_eq_empty p)
      end.

Lemma exec_selectedOrganization (st : State) (c : Command) :
  selectedOrganization (exec st c) = selectedOrganization st.
Proof. command_cases c; reflexivity. Qed.

Lemma exec_requests (st : State) (c : Command) :
  requests (exec st c)
  = requests st ++ option_list (request_made (selectedOrganization st) c).
Proof. command_cases c; simpl; rewrite ?app_nil_r; reflexivity. Qed.

Lemma exec_unhandled (st : State) (c : Command) :
  unhandled (exec st c) = unhandled st ++ option_list (left_unhandled c).
Proof. command_cases c; simpl; rewrite ?app_nil_r; reflexivity. Qed.

Lemma exec_notifications (st : State) (c : Command) :
  exists l, notifications (exec st c) = notifications st ++ l
            /\ Forall (fun n => timeout n = 5000) l
            /\ length l <= 1.
Proof.
  command_cases c; simpl;
    first [ solve [ exists []; rewrite app_nil_r; simpl; repeat split; auto ]
          | solve [ eexists [_]; simpl; repeat split; auto ] ].
Qed.

(** Over any sequence of commands with any outcomes, each fetch and each
    reset sends exactly one request, for the selected organization, and
    nothing else sends one: no outcome makes the view ask again. *)
Theorem one_request_per_operation (cs : list Command) (st : State) :
  requests (run cs st)
  = requests st ++ omap (request_made (selectedOrganization st)) cs
  /\ selectedOrganization (run cs st) = selectedOrganization st.
Proof.
  revert st. induction cs as [|c cs IH]; intros st; unfold run in *; simpl.
  - now rewrite app_nil_r.
  - destruct (IH (exec st c)) as [Hr Hs].
    rewrite Hr, Hs, exec_selectedOrganization, exec_requests, <- app_assoc.
    split; [|reflexivity]. f_equal.
    now destruct (request_made (selectedOrganization st) c).
Qed.

(** Over any sequence of commands, the rejections left without a handler
    are, in order: from each fetch, the rejection of its promise or the
    TypeError its [then] callback throws (no [data.data], or a token that
    cannot be converted for the comparison); from each reset, the TypeError
    its [catch] callback throws when the reason is [undefined] or [null] or
    its [error] cannot be converted; and none from anything else: a reset
    whose promise is rejected with an ordinary reason, a reset whose [then]
    callback throws, and a copy that fails leave none. *)
Theorem unhandled_rejections_traced (cs : list Command) (st : State) :
  unhandled (run cs st) = unhandled st ++ omap left_unhandled cs.
Proof.
  revert st. induction cs as [|c cs IH]; intros st; unfold run in *; simpl.
  - now rewrite app_nil_r.
  - rewrite IH, exec_unhandled, <- app_assoc. f_equal.
    now destruct (left_unhandled c).
Qed.

(** Every notification the view shows stays for 5000 ms, and a command shows
    at most one. *)
Theorem notifications_bounded (cs : list Command) (st : State) :
  exists l, notifications (run cs st) = notifications st ++ l
            /\ Forall (fun n => timeout n = 5000) l
            /\ length l <= length cs.
Proof.
  revert st. induction cs as [|c cs IH]; intros st; unfold run in *; simpl.
  - exists []. now rewrite app_nil_r.
  - destruct (exec_notifications st c) as (l1 & H1 & F1 & L1).
    destruct (IH (exec st c)) as (l2 & H2 & F2 & L2).
    exists (l1 ++ l2). rewrite H2, H1, <- app_assoc.
    split; [reflexivity|]. split; [now apply Forall_app|].
    rewrite length_app. lia.
Qed.

(** A reset ends with exactly one notification or with one rejection left
    unhandled, never with both and never with neither: the rejection when
    the reason is [undefined] or [null] or its [error] cannot be converted,
    the notification in every other case.  A copy always ends with exactly
    one notification.  A fetch ends with a notification only for a token
    equal to the empty string under [==]; it shows none when it succeeds
    and none when it fails, and it leaves a rejection unhandled exactly
    when its promise is rejected or its [then] callback throws. *)
Theorem notification_per_command (c : Command) (st : State) :
  let shown := length (notifications (exec st c)) - length (notifications st) in
  let lost := length (unhandled (exec st c)) - length (unhandled st) in
  match c with
  | Credential ResetPasscode o =>
      shown + lost = 1
      /\ (lost = 1 <-> exists e, o = Rejected e /\ catch_throws e)
  | Copy _ => shown = 1 /\ lost = 0
  | Credential FetchPasscode o =>
      (shown = 1 <-> exists res, o = Resolved (Data res)
                                 /\ loosely_empty (token res))
      /\ (lost = 1 <-> (exists e, o = Rejected e) \/ then_throws o)
      /\ shown + lost <= 1
  | ShowUpdateDialog => shown = 0 /\ lost = 0
  end.
Proof.
  cbv zeta. destruct c as [ [ | ] o | b | ].
  - (* fetch *)
    unfold then_throws.
    destruct o as [ [ | res ] | e ]; cbn [exec perform];
      unfold getOrganizationPasscode; cbn [fetch_settled].
    + simpl. rewrite length_app, Nat.sub_diag. simpl.
      split; [|split; [|lia]].
      * split; [lia | intros (r & H & _); discriminate H].
      * split; [auto | lia].
    + pose proof (loose_eq_empty_spec (token res)) as Hs.
      pose proof (loose_eq_empty_throws (token res)) as Ht.
      destruct (loose_eq_empty (token res)) as [[|]|]; simpl;
        rewrite ?length_app, ?Nat.sub_diag; simpl.
      * split; [|split; [|lia]].
        -- split; [intros _; exists res; split; [reflexivity|]|lia].
           now apply Hs.
        -- split; [lia|].
           intros [(e & H) | [H | (r & [= <-] & Hr)]]; try discriminate H.
           apply Ht in Hr. discriminate Hr.
      * split; [|split; [|lia]].
        -- split; [lia|].
           intros (r & [= <-] & Hr). apply Hs in Hr. discriminate Hr.
        -- split; [lia|].
           intros [(e & H) | [H | (r & [= <-] & Hr)]]; try discriminate H.
           apply Ht in Hr. discriminate Hr.
      * split; [|split; [|lia]].
        -- split; [lia|].
           intros (r & [= <-] & Hr). apply Hs in Hr. discriminate Hr.
        -- split; [|lia]. intros _. right. right. exists res.
           split; [reflexivity|]. now apply Ht.
    + simpl. rewrite length_app, Nat.sub_diag. simpl.
      split; [|split; [|lia]].
      * split; [lia | intros (r & H & _); discriminate H].
      * split; [eauto | lia].
  - (* reset *)
    destruct o as [ [ | res ] | [ t | ] ]; cbn [exec perform];
      unfold updatePasscode; cbn [reset_catch typeError].
    + simpl. rewrite length_app, Nat.sub_diag. simpl. split; [lia|].
      split; [lia | intros (e & H & _); discriminate H].
    + destruct (loose_eq_empty (token res)) as [[|]|]; simpl;
        rewrite ?length_app, ?Nat.sub_diag; simpl;
        (split; [lia|]; split; [lia | intros (e & H & _); discriminate H]).
    + pose proof (toString_throws t) as Ht.
      destruct (toString t) as [str|]; simpl;
        rewrite ?length_app, ?Nat.sub_diag; simpl.
      * split; [lia|]. split; [lia|].
        intros (e & [= <-] & [H | (v & [= <-] & Hv)]); [discriminate H|].
        apply Ht in Hv. discriminate Hv.
      * split; [lia|]. split; [|lia]. intros _.
        exists (mkFailure t). split; [reflexivity|]. right.
        exists t. split; [reflexivity|]. now apply Ht.
    + simpl. rewrite length_app, Nat.sub_diag. simpl. split; [lia|].
      split; [|lia]. intros _. exists NullishReason. split; [reflexivity|].
      now left.
  - destruct b; simpl; rewrite length_app, Nat.sub_diag; simpl; lia.
  - simpl. rewrite !Nat.sub_diag. lia.
Qed.
End IngestMore.

Section IngestRoutes.
Import IngestTraces.

Lemma on_ingest_route_test (name : string) :
  String.eqb name "ingestTraces" || String.eqb name "tracesOTLP" = true
  <-> on_ingest_route name.
Proof.
  unfold on_ingest_route. rewrite orb_true_iff, !String.eqb_eq. tauto.
Qed.

(** Mounted on one of the two ingestion routes, the view only redirects to
    [tracesOTLP] with the selected organization in the query and asks for no
    passcode; mounted on any other route it fetches the passcode and does
    not navigate. *)
Theorem mount_redirects_or_fetches (o : Outcome) (p : Page) :
  let p' := onMounted o p in
  (on_ingest_route (routeName p) ->
   view p' = view p
   /\ routeName p' = "tracesOTLP"
   /\ pushes p' = pushes p ++ [("tracesOTLP", selectedOrganization (view p))])
  /\ (~ on_ingest_route (routeName p) ->
      view p' = getOrganizationPasscode o (view p)
      /\ routeName p' = routeName p
      /\ pushes p' = pushes p).
Proof.
  cbv zeta. unfold onMounted, ingestRoutes. cbn [existsb]. rewrite orb_false_r.
  destruct (String.eqb (routeName p) "tracesOTLP") eqn:E1.
  - apply String.eqb_eq in E1. split.
    + intros _. unfold router_push. cbn. now rewrite E1.
    + intros H. destruct H. now right.
  - destruct (String.eqb (routeName p) "ingestTraces") eqn:E2.
    + split; [intros _; repeat split|].
      intros H. destruct H. left. now apply String.eqb_eq.
    + split; [|intros _; repeat split].
      intros [H|H]; apply String.eqb_eq in H; congruence.
Qed.

(** When the store selects another organization, the watcher sends the
    request for the passcode of the new organization if the view is on an
    ingestion route and sends nothing on any other route; the switch itself
    changes neither the organization the view shows nor the stored
    passcode.  When the promise of a fetch settles, its callback reads the
    organization that is selected at that moment: with a token the script
    accepts, the passcode of the response is stored and the organization
    shown becomes the one selected then, whichever organization the request
    was sent for; with any other outcome both stay as they were. *)
Theorem org_switch_fetches (org : string) (p : Page) :
  org <> selectedOrganization (view p) ->
  let p' := selectOrganization org p in
  (selectedOrganization (view p') = org
   /\ currentOrgIdentifier (view p') = currentOrgIdentifier (view p)
   /\ organizationPasscode (view p') = organizationPasscode (view p)
   /\ (on_ingest_route (routeName p) ->
       requests (view p')
       = requests (view p) ++ [get_organization_passcode org])
   /\ (~ on_ingest_route (routeName p) ->
       requests (view p') = requests (view p)))
  /\ (forall (o : Outcome) (q : Page),
         let q' := fetchSettles o q in
         selectedOrganization (view q') = selectedOrganization (view q)
         /\ requests (view q') = requests (view q)
         /\ (accepted o ->
             currentOrgIdentifier (view q') = selectedOrganization (view q)
             /\ exists res, o = Resolved (Data res)
                            /\ organizationPasscode (view q') = passcode res)
         /\ (~ accepted o ->
             currentOrgIdentifier (view q') = currentOrgIdentifier (view q)
             /\ organizationPasscode (view q') = organizationPasscode (view q)))
  /\ (forall (o : Outcome) (st : State),
         getOrganizationPasscode o st = fetch_settled o (fetch_sent st)).
Proof.
  intros Hne. cbv zeta. split; [|split; [|reflexivity]].
  - unfold selectOrganization. apply String.eqb_neq in Hne. rewrite Hne.
    unfold watch_selectedOrg. cbn [routeName view pushes]. rewrite Hne.
    cbn [negb andb].
    destruct (String.eqb (routeName p) "ingestTraces"
              || String.eqb (routeName p) "tracesOTLP") eqn:E.
    + apply on_ingest_route_test in E. cbn [view].
      split; [reflexivity|]. split; [reflexivity|]. split; [reflexivity|].
      split; [intros _; reflexivity | intros Hn; contradiction].
    + cbn [view].
      split; [reflexivity|]. split; [reflexivity|]. split; [reflexivity|].
      split; [|intros _; reflexivity].
      intros Hin. apply on_ingest_route_test in Hin. congruence.
  - intros o q. unfold fetchSettles, accepted. cbn [view].
    destruct o as [ [ | res ] | e ]; cbn [fetch_settled].
    + split; [reflexivity|]. split; [reflexivity|].
      split; [intros (r & Hr & _); discriminate Hr | intros _; split; reflexivity].
    + destruct (loose_eq_empty (token res)) as [[|]|] eqn:E; cbn.
      * split; [reflexivity|]. split; [reflexivity|].
        split; [intros (r & [= <-] & Hr); congruence
               | intros _; split; reflexivity].
      * split; [reflexivity|]. split; [reflexivity|].
        split; [intros _; split; [reflexivity | eauto]|].
        intros Hn. destruct Hn. eauto.
      * split; [reflexivity|]. split; [reflexivity|].
        split; [intros (r & [= <-] & Hr); congruence
               | intros _; split; reflexivity].
    + split; [reflexivity|]. split; [reflexivity|].
      split; [intros (r & Hr & _); discriminate Hr | intros _; split; reflexivity].
Qed.
End IngestRoutes.

Section MoreExamples.
Import PerformanceSummary.

Lemma sync_never_pushes_witness :
  let st := init (U := DateModel.model) "org1" "/rum/performance"
              {[ "refresh" := QStr "30s"; "period" := QStr "15m" ]} in
  let evs := [Activate; SetRefreshInterval 60; RefreshData; RouteChanged ∅] in
  let evs' := [Activate; SetRefreshInterval 60; RefreshData] in
  (exists l, effects (run (U := DateModel.model) 7 st evs) = effects st ++ l
             /\ List.filter is_router_push l = []
             /\ length (List.filter is_navigation l) <= 4)
  /\ route_path (run (U := DateModel.model) 7 st evs') = "/rum/performance".
Proof.
  cbv zeta. split.
  - apply (sync_never_pushes (U := DateModel.model) 7
             [Activate; SetRefreshInterval 60; RefreshData; RouteChanged ∅]).
    repeat constructor.
  - apply (sync_never_pushes (U := DateModel.model) 7
             [Activate; SetRefreshInterval 60; RefreshData]);
      repeat constructor.
Defined.

Lemma replace_rewrites_query_witness :
  let st := init (U := DateModel.model) "org1" "/rum/performance"
              {[ "dashboard" := QStr "d1"; "tab" := QStr "errors" ]} in
  let st' := step (U := DateModel.model) 7 st (SetRefreshInterval 30) in
  route_query st' !! "org_identifier" = Some (QStr "org1")
  /\ route_query st' !! "dashboard" = Some (QStr "d1")
  /\ route_query st' !! "folder" = None
  /\ route_query st' !! "tab" = None.
Proof.
  cbv zeta.
  destruct (replace_rewrites_query (U := DateModel.model) 7
              (init "org1" "/rum/performance"
                 {[ "dashboard" := QStr "d1"; "tab" := QStr "errors" ]})
              (SetRefreshInterval 30) eq_refl)
    as (Ho & Hd & Hf & _ & Hk).
  split; [exact (Ho eq_refl)|]. split; [exact (Hd eq_refl)|].
  split; [exact (Hf eq_refl)|].
  apply Hk; (discriminate || reflexivity).
Defined.

Lemma push_carries_folder_witness :
  let st := init (U := DateModel.model) "org1" "/rum/performance"
              {[ "dashboard" := QStr "d1"; "refresh" := QStr "30s" ]} in
  let st' := step (U := DateModel.model) 7 st GoBackToDashboardList in
  route_query st' !! "folder" = Some (QStr "default")
  /\ route_query st' !! "dashboard" = Some (QStr "d1")
  /\ route_query st' !! "refresh" = None.
Proof.
  cbv zeta.
  destruct (push_carries_folder (U := DateModel.model)
              (init "org1" "/rum/performance"
                 {[ "dashboard" := QStr "d1"; "refresh" := QStr "30s" ]})
              GoBackToDashboardList eq_refl 7)
    as (_ & _ & Hdef & Hd & Hk & _).
  split; [apply Hdef; left; reflexivity|]. split; [exact Hd|].
  apply Hk; discriminate.
Defined.

Lemma reachable_tracks_selection_witness :
  let st := step (U := DateModel.model) 7
              (init "org1" "/rum/performance" {[ "period" := QStr "15m" ]})
              Activate in
  reachable st
  /\ currentTimeObj (refreshData (1000 : @Instant DateModel.model) st)
     = Some (getConsumableDateTime (1000 : @Instant DateModel.model)
               (selectedDate st)).
Proof.
  cbv zeta.
  assert (H : reachable
                (step (U := DateModel.model) 7
                   (init "org1" "/rum/performance" {[ "period" := QStr "15m" ]})
                   Activate))
    by (apply reachable_step; [apply reachable_init | reflexivity]).
  split; [exact H|].
  destruct (reachable_tracks_selection _ H) as (_ & _ & Hr).
  apply Hr. vm_compute. discriminate.
Defined.

Lemma activation_with_date_recomputes_witness :
  let st := init (U := DateModel.model) "org1" "/rum/performance"
              {[ "period" := QStr "15m" ]} in
  let st' := onActivated (U := DateModel.model) 1000 st in
  selectedDate st' = Object 0 (DateModel.Relative "15m")
  /\ currentTimeObj st' = Some (100, 1000).
Proof.
  cbv zeta.
  pose proof (activation_with_date_recomputes (U := DateModel.model) 1000
                (init "org1" "/rum/performance" {[ "period" := QStr "15m" ]})
                (DateModel.Relative "15m")
                (reachable_init _ _ _)) as H.
  destruct H as (Hs & _ & Ht & _); [reflexivity | reflexivity |].
  split; [exact Hs | exact Ht].
Defined.
End MoreExamples.

Section MoreIngestExamples.
Import IngestTraces.

Lemma missing_token_accepted_witness :
  let st := init "org1" (JStr "old-passcode") in
  let res := mkResponse JUndefined (JStr "new-passcode") in
  organizationPasscode (getOrganizationPasscode (Resolved res) st)
  = JStr "new-passcode"
  /\ notifications (updatePasscode (Resolved res) st)
     = [mkNotification Positive "Token reset successfully." 5000].
Proof.
  cbv zeta. split.
  - exact (proj1 (missing_token_accepted FetchPasscode
                    (mkResponse JUndefined (JStr "new-passcode"))
                    (init "org1" (JStr "old-passcode")) (or_introl eq_refl))).
  - exact (proj2 (proj2 (proj2 (missing_token_accepted ResetPasscode
                    (mkResponse JUndefined (JStr "new-passcode"))
                    (init "org1" (JStr "old-passcode")) (or_introl eq_refl))))).
Defined.

Lemma mount_redirects_or_fetches_witness :
  let p := mkPage (init "org1" JUndefined) "ingestTraces" [] in
  let p2 := mkPage (init "org1" JUndefined) "ingestLogs" [] in
  let res := mkResponse (JStr "t") (JStr "pc") in
  (requests (view (onMounted (Resolved res) p)) = []
   /\ pushes (onMounted (Resolved res) p) = [("tracesOTLP", "org1")])
  /\ (requests (view (onMounted (Resolved res) p2))
      = [get_organization_passcode "org1"]
      /\ pushes (onMounted (Resolved res) p2) = []).
Proof.
  cbv zeta. split.
  - destruct (proj1 (mount_redirects_or_fetches
                       (Resolved (mkResponse (JStr "t") (JStr "pc")))
                       (mkPage (init "org1" JUndefined) "ingestTraces" []))
                (or_introl eq_refl)) as (Hv & _ & Hp).
    split; [now rewrite Hv | exact Hp].
  - assert (Hn : ~ on_ingest_route "ingestLogs")
      by (intros [H|H]; discriminate H).
    destruct (proj2 (mount_redirects_or_fetches
                       (Resolved (mkResponse (JStr "t") (JStr "pc")))
                       (mkPage (init "org1" JUndefined) "ingestLogs" []))
                Hn) as (Hv & _ & Hp).
    split; [now rewrite Hv | exact Hp].
Defined.

(** Two switches in a row on an ingestion route: the fetch for the first
    organization is answered with a passcode after the second was selected,
    and the view shows the second organization with that passcode. *)
Lemma org_switch_fetches_witness :
  let p := mkPage (init "org1" JUndefined) "tracesOTLP" [] in
  let p2 := selectOrganization "org2" p in
  let p3 := selectOrganization "org3" p2 in
  let answer := Resolved (mkResponse (JStr "t2") (JStr "passcode of org2")) in
  let p4 := fetchSettles answer (fetchSettles (Rejected NullishReason) p3) in
  "org2" <> selectedOrganization (view p)
  /\ requests (view p3)
     = [get_organization_passcode "org2"; get_organization_passcode "org3"]
  /\ currentOrgIdentifier (view p3) = "org1"
  /\ accepted answer
  /\ currentOrgIdentifier (view p4) = "org3"
  /\ organizationPasscode (view p4) = JStr "passcode of org2".
Proof.
  cbv zeta.
  assert (Hne : "org2" <> selectedOrganization
                            (view (mkPage (init "org1" JUndefined) "tracesOTLP" [])))
    by discriminate.
  assert (Hacc : accepted
                   (Resolved (mkResponse (JStr "t2") (JStr "passcode of org2"))))
    by (eexists; split; reflexivity).
  split; [exact Hne|].
  destruct (org_switch_fetches "org2"
              (mkPage (init "org1" JUndefined) "tracesOTLP" []) Hne)
    as (_ & Hsettle & _).
  split; [reflexivity|]. split; [reflexivity|]. split; [exact Hacc|].
  destruct (Hsettle
              (Resolved (mkResponse (JStr "t2") (JStr "passcode of org2")))
              (fetchSettles (Rejected NullishReason)
                 (selectOrganization "org3"
                    (selectOrganization "org2"
                       (mkPage (init "org1" JUndefined) "tracesOTLP" [])))))
    as (_ & _ & Ha & _).
  destruct (Ha Hacc) as (Hc & res & Hres & Hp).
  split; [exact Hc|]. rewrite Hp. now injection Hres as <-.
Defined.
End MoreIngestExamples.

Section ViewFrame.
Import PerformanceSummary.
Context {U : DateUtils}.

(** The time object and the stored duration selection are written only by
    [refreshData] and by a change of the selected date: every other step,
    a change of the refresh interval among them, leaves both as they are. *)
Theorem time_object_writers now (st : State) (ev : Event) :
  ev <> RefreshData ->
  dateChanged st (step now st ev) = false ->
  currentTimeObj (step now st ev) = currentTimeObj st
  /\ currentDurationSelectionObj (step now st ev) = currentDurationSelectionObj st.
Proof.
  intros Hev Hd.
  rewrite (proj1 (step_changed now st ev)) in Hd.
  destruct ev; try congruence; cbn [step writes] in *;
    try (split; reflexivity).
  - destruct (flush_date_frame now st (readParams st) Hd) as [Fd Ft].
    destruct (readParams_frame st) as (_ & _ & _ & _ & Rd & Rt & _).
    unfold onActivated, emit. cbn [currentTimeObj currentDurationSelectionObj].
    split; congruence.
  - destruct (flush_date_frame now st (set_refreshInterval n st) Hd) as [Fd Ft].
    split; [exact Ft | exact Fd].
  - destruct (flush_date_frame now st (set_selectedDate v st) Hd) as [Fd Ft].
    split; [exact Ft | exact Fd].
Qed.
End ViewFrame.

Lemma time_object_writers_witness :
  let st := PerformanceSummary.step (U := DateModel.model) 1000
              (PerformanceSummary.init "org1" "/rum/performance"
                 {[ "period" := QStr "15m" ]})
              PerformanceSummary.Activate in
  let st' := PerformanceSummary.step (U := DateModel.model) 2000 st
               (PerformanceSummary.SetRefreshInterval 30) in
  PerformanceSummary.refreshInterval st' = 30
  /\ PerformanceSummary.currentTimeObj st' = Some (100, 1000).
Proof.
  cbv zeta. split; [reflexivity|].
  rewrite (proj1 (time_object_writers (U := DateModel.model) 2000
                    (PerformanceSummary.step (U := DateModel.model) 1000
                       (PerformanceSummary.init "org1" "/rum/performance"
                          {[ "period" := QStr "15m" ]})
                       PerformanceSummary.Activate)
                    (PerformanceSummary.SetRefreshInterval 30)
                    ltac:(discriminate) ltac:(reflexivity))).
  reflexivity.
Defined.
